(** * seo-canonical-check: the URL normaliser, the canonical-tag evaluator and
    the audit loop of [canonical.js], embedded in Rocq.

    Strings are byte strings ([string] of the Standard Library); the
    JavaScript string methods the program calls are written out in [JS].
    The platform (the WHATWG [URL] class, [fetch], the DOM, the sitemap parser
    and the clock) is an interface: the program is embedded over any
    implementation of it, and the general statements hold for all of them.
    [Whatwg] gives an executable [URL] for plain http(s) URLs and [Site] a
    small world, on which the concrete runs are computed. Asynchronous calls
    are sequential here, as every one of them is awaited; console output is
    left out. *)

From Stdlib Require Import String Ascii List Bool Arith NArith Lia.
From Stdlib Require Import Decimal DecimalString.
Import ListNotations.
Local Open Scope string_scope.
Local Open Scope bool_scope.
Local Open Scope nat_scope.

(** ** JavaScript string methods *)

Module JS.

Definition isUpper (c : ascii) : bool :=
  (65 <=? nat_of_ascii c) && (nat_of_ascii c <=? 90).

Definition lowerChar (c : ascii) : ascii :=
  if isUpper c then ascii_of_nat (nat_of_ascii c + 32) else c.

(** [s.toLowerCase()], on the ASCII letters. *)
Fixpoint toLowerCase (s : string) : string :=
  match s with
  | EmptyString => EmptyString
  | String c r => String (lowerChar c) (toLowerCase r)
  end.

Fixpoint drop (n : nat) (s : string) : string :=
  match n, s with
  | O, _ => s
  | S _, EmptyString => EmptyString
  | S k, String _ r => drop k r
  end.

(** [s.startsWith(p)]. *)
Definition startsWith (s p : string) : bool := String.prefix p s.

(** [s.endsWith(p)]. *)
Definition endsWith (s p : string) : bool :=
  (String.length p <=? String.length s) &&
  (drop (String.length s - String.length p) s =? p)%string.

(** [s.indexOf(pat)], with [None] for -1. *)
Fixpoint indexOf (s pat : string) : option nat :=
  if String.prefix pat s then Some O
  else match s with
       | EmptyString => None
       | String _ r => option_map S (indexOf r pat)
       end.

(** [s.includes(pat)]. *)
Definition includes (s pat : string) : bool :=
  match indexOf s pat with Some _ => true | None => false end.

(** [s.replace(pat, rep)] with a string pattern: only the first occurrence
    is replaced ([rep] holds no dollar sign here). *)
Fixpoint replace (s pat rep : string) : string :=
  if String.prefix pat s then rep ++ drop (String.length pat) s
  else match s with
       | EmptyString => EmptyString
       | String c r => String c (replace r pat rep)
       end.

(** [s.includes(c)] for one character. *)
Fixpoint hasChar (c : ascii) (s : string) : bool :=
  match s with
  | EmptyString => false
  | String d r => Ascii.eqb c d || hasChar c r
  end.

(** [s.split(sep)[0]] for a one-character separator. *)
Fixpoint splitHead (s : string) (sep : ascii) : string :=
  match s with
  | EmptyString => EmptyString
  | String c r => if Ascii.eqb c sep then EmptyString else String c (splitHead r sep)
  end.

(** [s.slice(0, -1)]. *)
Fixpoint sliceInit (s : string) : string :=
  match s with
  | EmptyString => EmptyString
  | String c EmptyString => EmptyString
  | String c r => String c (sliceInit r)
  end.

(** White space of [trim], within ASCII: tab, line feed, vertical tab, form
    feed, carriage return, space. *)
Definition isSpace (c : ascii) : bool :=
  let n := nat_of_ascii c in ((9 <=? n) && (n <=? 13)) || (n =? 32).

Fixpoint trimStart (s : string) : string :=
  match s with
  | EmptyString => EmptyString
  | String c r => if isSpace c then trimStart r else s
  end.

Fixpoint trimEnd (s : string) : string :=
  match s with
  | EmptyString => EmptyString
  | String c r =>
      match trimEnd r with
      | EmptyString => if isSpace c then EmptyString else String c EmptyString
      | r' => String c r'
      end
  end.

(** [s.trim()]. *)
Definition trim (s : string) : string := trimEnd (trimStart s).

(** [a || b] on strings: the empty string is falsy. *)
Definition orElse (a b : string) : string :=
  match a with EmptyString => b | _ => a end.

(** A number in a template literal. *)
Definition showN (n : N) : string := NilEmpty.string_of_uint (N.to_uint n).

Definition quote : string := String (ascii_of_nat 34) EmptyString.
Definition newline : string := String (ascii_of_nat 10) EmptyString.

End JS.

(** ** The [URL] class of the platform *)

(** [new URL(s)] and [new URL(s, base)] throw a [TypeError] on failure, here
    [None]; the getters are those the program reads. *)
Class URLApi := {
  URL : Type;
  newURL : string -> option URL;
  newURLWithBase : string -> string -> option URL;
  toString : URL -> string;
  pathname : URL -> string;
  hostname : URL -> string;
  protocol : URL -> string
}.

(** ** normalizeUrl *)

Inductive Exc (A : Type) : Type :=
| Ret (a : A)
| Throw (message : string).
Arguments Ret {A} a.
Arguments Throw {A} message.

(** The message of the [TypeError] of a failed [new URL]. *)
Definition invalidUrl : string := "Invalid URL".

Section Normalizer.
Context {api : URLApi}.

Definition construct (o : option URL) : Exc URL :=
  match o with Some u => Ret u | None => Throw invalidUrl end.

(** The pipeline of the [try] block, on a parsed URL. *)
Definition normalizeParsed (parsedUrl : URL) : string :=
  let normalized := JS.toLowerCase (toString parsedUrl) in
  let normalized :=
    if JS.endsWith normalized "/" && negb (pathname parsedUrl =? "/")%string
    then JS.sliceInit normalized else normalized in
  let normalized := JS.replace (JS.replace normalized ":80/" "/") ":443/" "/" in
  let normalized := JS.replace normalized "://www." "://" in
  let urlWithoutQuery := JS.splitHead normalized "?" in
  let urlWithoutHash := JS.splitHead urlWithoutQuery "#" in
  urlWithoutHash.

(** The [try] block of [normalizeUrl]. *)
Definition normalizeTry (url : string) : Exc string :=
  match construct (newURL url) with
  | Throw m => Throw m
  | Ret parsedUrl => Ret (normalizeParsed parsedUrl)
  end.

(** [normalizeUrl]: the [catch] logs and returns the input. *)
Definition normalizeUrl (url : string) : string :=
  match normalizeTry url with
  | Ret v => v
  | Throw _ => url
  end.

Definition areUrlsEquivalent (url1 url2 : string) : bool :=
  (normalizeUrl url1 =? normalizeUrl url2)%string.

(** [try { x } catch (error) { handler(error.message) }], without effects. *)
Definition catchExc {A} (x : Exc A) (handler : string -> Exc A) : Exc A :=
  match x with
  | Ret a => Ret a
  | Throw m => handler m
  end.

(** [normalizeUrl] with what it could throw kept in the result: the [try]
    block and the [catch] that returns the input. [normalizeUrl] above is the
    value it returns. *)
Definition normalizeUrlRun (url : string) : Exc string :=
  catchExc (normalizeTry url) (fun _ => Ret url).

End Normalizer.

(** ** An executable [URL] for plain http(s) URLs *)

(** [Whatwg.parse] follows the WHATWG URL parser on inputs of the shape
    [scheme://host[:port][/path][?query][#fragment]] with scheme http or https
    in any case, a host of letters, digits, [.] and [-] whose last label starts
    with a letter and which has no punycode label, a decimal port, and path,
    query and fragment made of characters the parser leaves as they are, with
    no dot segment. On these it
    lowercases scheme and host, drops a default port, and turns an empty path
    into [/]. Everything else (other schemes, credentials, IP literals,
    characters that would be percent-encoded, dot segments, relative
    references other than [/path] and [//host/path]) is outside the model and
    answered with [None]. *)
Module Whatwg.

Record Url := mkUrl {
  scheme : string;
  host : string;
  port : option N;
  path : string;
  query : option string;
  fragment : option string
}.

Definition isDigit (c : ascii) : bool :=
  (48 <=? nat_of_ascii c) && (nat_of_ascii c <=? 57).

Definition isAlpha (c : ascii) : bool :=
  let n := nat_of_ascii c in
  ((65 <=? n) && (n <=? 90)) || ((97 <=? n) && (n <=? 122)).

Fixpoint forallb (p : ascii -> bool) (s : string) : bool :=
  match s with
  | EmptyString => true
  | String c r => p c && forallb p r
  end.

Fixpoint takeWhile (p : ascii -> bool) (s : string) : string :=
  match s with
  | EmptyString => EmptyString
  | String c r => if p c then String c (takeWhile p r) else EmptyString
  end.

Fixpoint dropWhile (p : ascii -> bool) (s : string) : string :=
  match s with
  | EmptyString => EmptyString
  | String c r => if p c then dropWhile p r else s
  end.

Definition hostChar (c : ascii) : bool :=
  isAlpha c || isDigit c || JS.hasChar c ".-".

Definition pathChar (c : ascii) : bool :=
  isAlpha c || isDigit c || JS.hasChar c "-._~!$&'()*+,;=:@/%".

Definition queryChar (c : ascii) : bool :=
  isAlpha c || isDigit c || JS.hasChar c "-._~!$&()*+,;=:@/%?".

Definition fragmentChar (c : ascii) : bool :=
  isAlpha c || isDigit c || JS.hasChar c "-._~!$&'()*+,;=:@/%?".

(** The label after the last dot. *)
Fixpoint lastLabel (s : string) : string :=
  match s with
  | EmptyString => EmptyString
  | String c r =>
      if JS.hasChar "."%char r then lastLabel r
      else if Ascii.eqb c "." then r else s
  end.

Definition validHost (h : string) : bool :=
  forallb hostChar h
  && negb (JS.includes h "xn--")
  && match lastLabel h with
     | EmptyString => false
     | String c _ => isAlpha c
     end.

Fixpoint digitsValue (s : string) (acc : N) : N :=
  match s with
  | EmptyString => acc
  | String c r => digitsValue r (10 * acc + N.of_nat (nat_of_ascii c - 48))
  end.

Definition defaultPort (sch : string) : N :=
  if (sch =? "http")%string then 80%N else 443%N.

(** The port after the colon: digits with a value of at most 65535; no port
    when it is empty or the scheme's default. *)
Definition parsePort (sch digits : string) : option (option N) :=
  if negb (forallb isDigit digits) then None
  else match digits with
       | EmptyString => Some None
       | _ =>
           let v := digitsValue digits 0%N in
           if (65535 <? v)%N then None
           else if (v =? defaultPort sch)%N then Some None
           else Some (Some v)
       end.

(** One segment is a dot segment: [.], [..] or a spelling with [%2e]. *)
Fixpoint hasDotSegment (segStart : bool) (s : string) : bool :=
  match s with
  | EmptyString => false
  | String c r =>
      if Ascii.eqb c "/" then hasDotSegment true r
      else if segStart then
        let seg := takeWhile (fun d => negb (Ascii.eqb d "/")) s in
        (seg =? ".")%string || (seg =? "..")%string || hasDotSegment false r
      else hasDotSegment false r
  end.

Definition validPath (p : string) : bool :=
  forallb pathChar p
  && negb (hasDotSegment true p)
  && negb (JS.includes (JS.toLowerCase p) "%2e").

Definition notIn (stops : string) (c : ascii) : bool := negb (JS.hasChar c stops).

Definition splitScheme (input : string) : option (string * string) :=
  let lower := JS.toLowerCase input in
  if JS.startsWith lower "https://" then Some ("https", JS.drop 8 input)
  else if JS.startsWith lower "http://" then Some ("http", JS.drop 7 input)
  else None.

Definition parse (input : string) : option Url :=
  match splitScheme input with
  | None => None
  | Some (sch, rest) =>
      let authority := takeWhile (notIn "/?#") rest in
      let afterAuthority := dropWhile (notIn "/?#") rest in
      let hostPart := takeWhile (notIn ":") authority in
      let portPart := dropWhile (notIn ":") authority in
      let rawPath := takeWhile (notIn "?#") afterAuthority in
      let afterPath := dropWhile (notIn "?#") afterAuthority in
      let rawQuery := takeWhile (notIn "#") afterPath in
      let rawFragment := dropWhile (notIn "#") afterPath in
      let h := JS.toLowerCase hostPart in
      match parsePort sch (JS.drop 1 portPart) with
      | None => None
      | Some prt =>
          let q := match rawQuery with
                   | EmptyString => None
                   | String _ r => Some r
                   end in
          let f := match rawFragment with
                   | EmptyString => None
                   | String _ r => Some r
                   end in
          if validHost h && validPath rawPath
             && forallb queryChar (JS.drop 1 rawQuery)
             && forallb fragmentChar (JS.drop 1 rawFragment)
          then Some (mkUrl sch h prt
                       (match rawPath with EmptyString => "/" | _ => rawPath end)
                       q f)
          else None
      end
  end.

(** The URL serialiser: [href] and [toString()]. *)
Definition href (u : Url) : string :=
  scheme u ++ "://" ++ host u
  ++ match port u with Some p => ":" ++ JS.showN p | None => "" end
  ++ path u
  ++ match query u with Some q => "?" ++ q | None => "" end
  ++ match fragment u with Some f => "#" ++ f | None => "" end.

Definition origin (u : Url) : string :=
  scheme u ++ "://" ++ host u
  ++ match port u with Some p => ":" ++ JS.showN p | None => "" end.

(** [new URL(ref, base)]: the base must parse; an absolute reference
    replaces it, [//host/path] keeps its scheme, [/path] its origin. *)
Definition parseWithBase (ref base : string) : option Url :=
  match parse base with
  | None => None
  | Some b =>
      match parse ref with
      | Some u => Some u
      | None =>
          if JS.startsWith ref "//" then parse (scheme b ++ ":" ++ ref)
          else if JS.startsWith ref "/" then parse (origin b ++ ref)
          else None
      end
  end.

#[export] Instance api : URLApi := {
  URL := Url;
  newURL := parse;
  newURLWithBase := parseWithBase;
  toString := href;
  pathname := path;
  hostname := host;
  protocol := fun u => scheme u ++ ":"
}.

End Whatwg.

(** ** Effects: the network, the file system, exceptions *)

(** What a run leaves behind: the requests sent, in order, and the files
    written (path and content), in order. Console output is not modelled. *)
Record Effects := mkEffects {
  requests : list string;
  files : list (string * string)
}.

Definition noEffects : Effects := mkEffects [] [].

(** A computation that may throw; its effects stay when it throws. *)
Definition M (A : Type) : Type := Effects -> Exc A * Effects.

Definition ret {A} (a : A) : M A := fun e => (Ret a, e).

Definition throw {A} (message : string) : M A := fun e => (Throw message, e).

Definition bind {A B} (c : M A) (k : A -> M B) : M B :=
  fun e => match c e with
           | (Ret a, e') => k a e'
           | (Throw m, e') => (Throw m, e')
           end.

(** [try { c } catch (error) { handler(error.message) }]. *)
Definition tryCatch {A} (c : M A) (handler : string -> M A) : M A :=
  fun e => match c e with
           | (Ret a, e') => (Ret a, e')
           | (Throw m, e') => handler m e'
           end.

(** A step that only computes, or throws. *)
Definition await {A} (x : Exc A) : M A := fun e => (x, e).

Notation "x <- c ;; k" := (bind c (fun x => k))
  (at level 61, c at next level, right associativity).

(** ** The world around the program *)

(** What the program reads of a [fetch] response. *)
Record Response := mkResponse {
  resp_status : N;
  resp_text : Exc string
}.

(** What the program reads of a [link] element: [getAttribute('href')]
    ([None] for null) and whether [closest('head')] finds an ancestor. *)
Record Element := mkElement {
  getAttribute_href : option string;
  closest_head : bool
}.

Record Config := mkConfig { sitemapUrls : list string }.

Class World := {
  (** [fetch(url)], after the requests already sent: a response, or a
      rejection with its message. *)
  fetch : list string -> string -> Exc Response;
  (** [new JSDOM(html)] and [querySelectorAll('link[rel="canonical"]')]. *)
  canonicalLinks : string -> list Element;
  (** [parseStringPromise(xml)] and [result.urlset.url.map(u => u.loc[0])]:
      throws on malformed XML and on a document without that shape. *)
  sitemapLocs : string -> Exc (list string);
  (** [config.json], read and parsed. *)
  loadConfig : Exc Config;
  (** The clock, read when the n-th report is written. *)
  getTimestamp : nat -> string;
  (** [fs.mkdirSync(dir, { recursive: true })]: done, or an error with its
      message. *)
  mkdirSync : string -> Exc unit;
  (** [fs.writeFileSync(path, content, 'utf8')], after the files already
      written: done, or an error with its message. *)
  writeFileSync : list (string * string) -> string -> string -> Exc unit
}.

Inductive Status := OK | FAIL.

Definition showStatus (s : Status) : string :=
  match s with OK => "OK" | FAIL => "FAIL" end.

Record PageCheckResult := mkResult {
  url : string;
  status : Status;
  explanation : string
}.

(** The two variables [status] and [explanation] of a check in progress. *)
Record Verdict := mkVerdict {
  v_status : Status;
  v_explanation : string
}.

(** [if (cond) { status = 'FAIL'; explanation += message; }] *)
Definition check (cond : bool) (message : string) (v : Verdict) : Verdict :=
  if cond then mkVerdict FAIL (v_explanation v ++ message) else v.

Definition isRedirect (code : N) : bool :=
  existsb (N.eqb code) [301; 302; 307; 308]%N.

Section Evaluator.
Context {api : URLApi} {world : World}.

Definition doFetch (target : string) : M Response :=
  fun e => (fetch (requests e) target,
            mkEffects (requests e ++ [target])%list (files e)).

(** The inner [try] of [runCanonicalChecks]: the status of the canonical
    target. Only the [fetch] can throw, before any assignment. *)
Definition checkCanonicalStatus (canonicalUrl : string) (v : Verdict) : M Verdict :=
  tryCatch
    (canonicalResponse <- doFetch canonicalUrl ;;
     let v := check (negb (resp_status canonicalResponse =? 200)%N)
                ("Canonical URL returned status "
                 ++ JS.showN (resp_status canonicalResponse) ++ ". ") v in
     let v := check (isRedirect (resp_status canonicalResponse))
                "Canonical URL is redirecting. " v in
     ret v)
    (fun message =>
       ret (check true ("Error fetching canonical URL: " ++ message ++ ". ") v)).

(** The checks on a non-empty [href]. *)
Definition checkHref (url href : string) (canonicalLink : Element) (v : Verdict)
  : M Verdict :=
  resolved <- await (construct (newURLWithBase href url)) ;;
  let canonicalUrl := toString resolved in
  let v := check (negb (closest_head canonicalLink))
             "Canonical tag is not in the head section. " v in
  v <- checkCanonicalStatus canonicalUrl v ;;
  pageUrl <- await (construct (newURL url)) ;;
  target <- await (construct (newURL canonicalUrl)) ;;
  let v := check (negb (hostname pageUrl =? hostname target)%string)
             "Canonical URL uses a different domain. " v in
  pageUrl <- await (construct (newURL url)) ;;
  target <- await (construct (newURL canonicalUrl)) ;;
  let v := check (negb (protocol pageUrl =? protocol target)%string)
             "Canonical URL uses a different protocol. " v in
  let v := check (negb (JS.startsWith canonicalUrl "http://")
                  && negb (JS.startsWith canonicalUrl "https://"))
             "Canonical URL is not absolute. " v in
  let v := check (negb (canonicalUrl =? JS.toLowerCase canonicalUrl)%string)
             "Canonical URL is not lowercase. " v in
  ret v.

(** The checks on the canonical links of the document. *)
Definition checkLinks (url : string) (links : list Element) : M Verdict :=
  let v := mkVerdict OK "" in
  match links with
  | [] => ret (check true "Canonical tag is missing. " v)
  | canonicalLink :: _ =>
      let v := check (1 <? List.length links)
                 "Multiple canonical tags detected. " v in
      match getAttribute_href canonicalLink with
      | None | Some EmptyString => ret (check true "Canonical tag is empty. " v)
      | Some href => checkHref url href canonicalLink v
      end
  end.

(** [runCanonicalChecks(url)]. *)
Definition runCanonicalChecks (url : string) : M PageCheckResult :=
  tryCatch
    (response <- doFetch url ;;
     html <- await (resp_text response) ;;
     v <- checkLinks url (canonicalLinks html) ;;
     ret (mkResult url (v_status v)
            (JS.orElse (JS.trim (v_explanation v)) "No errors")))
    (fun message => ret (mkResult url FAIL ("Fetch error: " ++ message))).

End Evaluator.

(** ** The earlier version of the evaluator *)

(** An earlier version of [canonical.js], kept in the source listing: the
    same function, with a self-reference check after the status check and
    the remaining checks in another order. *)
Module Earlier.
Section Evaluator.
Context {api : URLApi} {world : World}.

Definition checkHref (url href : string) (canonicalLink : Element) (v : Verdict)
  : M Verdict :=
  resolved <- await (construct (newURLWithBase href url)) ;;
  let canonicalUrl := toString resolved in
  let v := check (negb (closest_head canonicalLink))
             "Canonical tag is not in the head section. " v in
  v <- checkCanonicalStatus canonicalUrl v ;;
  let v := check (negb (canonicalUrl =? url)%string)
             "Canonical URL does not reference itself. " v in
  let v := check (negb (JS.startsWith canonicalUrl "http://")
                  && negb (JS.startsWith canonicalUrl "https://"))
             "Canonical URL is not absolute. " v in
  pageUrl <- await (construct (newURL url)) ;;
  target <- await (construct (newURL canonicalUrl)) ;;
  let v := check (negb (hostname pageUrl =? hostname target)%string)
             "Canonical URL uses a different domain. " v in
  pageUrl <- await (construct (newURL url)) ;;
  target <- await (construct (newURL canonicalUrl)) ;;
  let v := check (negb (protocol pageUrl =? protocol target)%string)
             "Canonical URL uses a different protocol. " v in
  let v := check (negb (canonicalUrl =? JS.toLowerCase canonicalUrl)%string)
             "Canonical URL is not lowercase. " v in
  ret v.

Definition checkLinks (url : string) (links : list Element) : M Verdict :=
  let v := mkVerdict OK "" in
  match links with
  | [] => ret (check true "Canonical tag is missing. " v)
  | canonicalLink :: _ =>
      let v := check (1 <? List.length links)
                 "Multiple canonical tags detected. " v in
      match getAttribute_href canonicalLink with
      | None | Some EmptyString => ret (check true "Canonical tag is empty. " v)
      | Some href => checkHref url href canonicalLink v
      end
  end.

Definition runCanonicalChecks (url : string) : M PageCheckResult :=
  tryCatch
    (response <- doFetch url ;;
     html <- await (resp_text response) ;;
     v <- checkLinks url (canonicalLinks html) ;;
     ret (mkResult url (v_status v)
            (JS.orElse (JS.trim (v_explanation v)) "No errors")))
    (fun message => ret (mkResult url FAIL ("Fetch error: " ++ message))).

End Evaluator.
End Earlier.

(** ** The audit loop *)

Record Totals := mkTotals {
  totalOK : nat;
  totalFail : nat;
  totalChecked : nat
}.

Definition showNat (n : nat) : string := JS.showN (N.of_nat n).

(** The length of a match of [^https?:\/\/[^\/]+\/] at the start. *)
Definition originPrefix (s : string) : option nat :=
  let afterScheme :=
    if JS.startsWith s "https://" then Some 8
    else if JS.startsWith s "http://" then Some 7
    else None in
  match afterScheme with
  | None => None
  | Some n =>
      let rest := JS.drop n s in
      let name := Whatwg.takeWhile (Whatwg.notIn "/") rest in
      match name, JS.drop (String.length name) rest with
      | String _ _, String _ _ => Some (n + String.length name + 1)
      | _, _ => None
      end
  end.

Fixpoint dashes (s : string) : string :=
  match s with
  | EmptyString => EmptyString
  | String c r => String (if Ascii.eqb c "/" then "-"%char else c) (dashes r)
  end.

Fixpoint take (n : nat) (s : string) : string :=
  match n, s with
  | O, _ => EmptyString
  | S _, EmptyString => EmptyString
  | S k, String c r => String c (take k r)
  end.

(** [url.replace(/^https?:\/\/[^\/]+\/|\.xml$/g, '').replace(/\//g, '-')] *)
Definition getSitemapName (url : string) : string :=
  let rest := match originPrefix url with
              | Some n => JS.drop n url
              | None => url
              end in
  let stem := if JS.endsWith rest ".xml"
              then take (String.length rest - 4) rest else rest in
  dashes stem.

Section Orchestrator.
Context {api : URLApi} {world : World}.

Definition getDomainName (url : string) : M string :=
  parsed <- await (construct (newURL url)) ;;
  ret (hostname parsed).

Definition fetchSitemapUrls (sitemapUrl : string) : M (list string) :=
  response <- doFetch sitemapUrl ;;
  xml <- await (resp_text response) ;;
  urls <- await (sitemapLocs xml) ;;
  ret urls.

(** [fs.mkdirSync(dir, { recursive: true })]; directories are not part of
    the effects. *)
Definition makeDir (dir : string) : M unit := await (mkdirSync dir).

(** [fs.writeFileSync(path, content, 'utf8')]: the file is there unless the
    call throws. *)
Definition writeFile (path content : string) : M unit :=
  fun e => match writeFileSync (files e) path content with
           | Ret _ => (Ret tt, mkEffects (requests e) (files e ++ [(path, content)])%list)
           | Throw m => (Throw m, e)
           end.

Definition readClock : M string :=
  fun e => (Ret (getTimestamp (List.length (files e))), e).

Definition csvRow (r : PageCheckResult) : string :=
  url r ++ "," ++ showStatus (status r) ++ "," ++ JS.quote ++ explanation r ++ JS.quote.

Definition countOK (results : list PageCheckResult) : nat :=
  List.length (filter (fun r => match status r with OK => true | FAIL => false end) results).

Definition countFail (results : list PageCheckResult) : nat :=
  List.length (filter (fun r => match status r with OK => false | FAIL => true end) results).

(** [saveResultsToCSV(results, domain, sitemapName)]: the directory, the
    rows, the summary, one file. [path.join] is written as the concatenation
    with [/], which it is (on POSIX) when the domain is one plain segment
    ([plainSegment]) and the file name holds no slash: the case of a host
    name and of a name that [getSitemapName] made. *)
Definition saveResultsToCSV (results : list PageCheckResult)
    (domain sitemapName : string) : M Totals :=
  let resultsDir := "results/" ++ domain in
  _ <- makeDir resultsDir ;;
  timestamp <- readClock ;;
  let csvFilePath := resultsDir ++ "/" ++ sitemapName ++ "_" ++ timestamp ++ ".csv" in
  let totalOK := countOK results in
  let totalFail := countFail results in
  let summary :=
    [JS.newline ++ "Total URLs Checked: " ++ showNat (List.length results);
     "Total OK: " ++ showNat totalOK;
     "Total FAIL (Canonical Issues): " ++ showNat totalFail] in
  let csvRows := List.app ("URL,Status,Explanation" :: map csvRow results) summary in
  _ <- writeFile csvFilePath (String.concat JS.newline csvRows) ;;
  ret (mkTotals totalOK totalFail (List.length results)).

(** The inner loop of [runAudit]: one result per URL, in order. *)
Fixpoint checkAll (urls : list string) : M (list PageCheckResult) :=
  match urls with
  | [] => ret []
  | u :: rest =>
      r <- runCanonicalChecks u ;;
      rs <- checkAll rest ;;
      ret (r :: rs)
  end.

(** The outer loop of [runAudit], with the grand totals so far. *)
Fixpoint auditSitemaps (sitemaps : list string) (grand : Totals) : M Totals :=
  match sitemaps with
  | [] => ret grand
  | sitemapUrl :: rest =>
      domain <- getDomainName sitemapUrl ;;
      let sitemapName := getSitemapName sitemapUrl in
      urls <- fetchSitemapUrls sitemapUrl ;;
      results <- checkAll urls ;;
      t <- saveResultsToCSV results domain sitemapName ;;
      auditSitemaps rest
        (mkTotals (totalOK grand + totalOK t)
                  (totalFail grand + totalFail t)
                  (totalChecked grand + totalChecked t))
  end.

(** [runAudit()]; the grand totals it prints are its result here. *)
Definition runAudit : M Totals :=
  config <- await loadConfig ;;
  auditSitemaps (sitemapUrls config) (mkTotals 0 0 0).

End Orchestrator.

(** ** A small site, for concrete runs *)

Module Site.

Fixpoint lookup {A} (key : string) (table : list (string * A)) : option A :=
  match table with
  | [] => None
  | (k, a) :: rest => if (key =? k)%string then Some a else lookup key rest
  end.

Definition page (links : string) : Response := mkResponse 200 (Ret links).

(** The documents are named by what their canonical links are. *)
Definition documents : list (string * list Element) :=
  [ ("self", [mkElement (Some "https://example.com/") true]);
    ("to-b", [mkElement (Some "https://example.com/b") true]);
    ("to-moved", [mkElement (Some "/moved") true]);
    ("to-offline", [mkElement (Some "https://offline.example.com/x") true]);
    ("none", []) ].

Definition responses : list (string * Exc Response) :=
  [ ("https://example.com/", Ret (page "self"));
    ("https://example.com/a", Ret (page "to-b"));
    ("https://example.com/b", Ret (page "none"));
    ("https://example.com/old", Ret (page "to-moved"));
    ("https://example.com/moved", Ret (mkResponse 301 (Ret "")));
    ("https://example.com/lost", Ret (page "to-offline"));
    ("https://example.com/none", Ret (page "none"));
    ("https://example.com/sitemap.xml", Ret (mkResponse 200 (Ret "sitemap")));
    ("https://example.com/news.xml", Ret (mkResponse 200 (Ret "news")));
    ("https://example.com/broken.xml", Ret (mkResponse 200 (Ret "<urlset"))) ].

Definition sitemaps : list (string * list string) :=
  [ ("sitemap", ["https://example.com/"; "https://example.com/none"]);
    ("news", ["https://example.com/a"]) ].

Definition refused (target : string) : string :=
  "request to " ++ target ++ " failed, reason: getaddrinfo ENOTFOUND".

(** A site that answers the same whatever was requested before. *)
Definition world (configured : list string) : World := {|
  fetch := fun _ target =>
    match lookup target responses with
    | Some r => r
    | None => Throw (refused target)
    end;
  canonicalLinks := fun html =>
    match lookup html documents with Some l => l | None => [] end;
  sitemapLocs := fun xml =>
    match lookup xml sitemaps with
    | Some l => Ret l
    | None => Throw "Unclosed root tag"
    end;
  loadConfig := Ret (mkConfig configured);
  getTimestamp := fun _ => "20250312210307";
  mkdirSync := fun _ => Ret tt;
  writeFileSync := fun _ _ _ => Ret tt
|}.

End Site.

(** ** The time stamp of a report *)

(** [s.replace(/[chars]/g, '')]: every character of the class removed. *)
Fixpoint removeChars (chars s : string) : string :=
  match s with
  | EmptyString => EmptyString
  | String c r =>
      if JS.hasChar c chars then removeChars chars r
      else String c (removeChars chars r)
  end.

(** [getTimestamp()], on the text that [now.toISOString()] returns:
    [iso.replace(/[-T:]/g, '').split('.')[0]]. The [getTimestamp] of a
    [World] is this function on the clock's readings. *)
Definition timestampOfISO (iso : string) : string :=
  JS.splitHead (removeChars "-T:" iso) ".".

(** The text of [toISOString()] from its fields:
    [YYYY-MM-DDTHH:mm:ss.sssZ]. *)
Definition isoString (year month day hours minutes seconds millis : string) : string :=
  year ++ "-" ++ month ++ "-" ++ day ++ "T"
  ++ hours ++ ":" ++ minutes ++ ":" ++ seconds ++ "." ++ millis ++ "Z".

(** A field of a date: none of the separators in it. *)
Definition dateField (s : string) : Prop :=
  JS.hasChar "-" s = false /\ JS.hasChar "T" s = false
  /\ JS.hasChar ":" s = false /\ JS.hasChar "." s = false.

(** ** A second site, with the documents the first one lacks *)

Module Blog.

Definition documents : list (string * list Element) :=
  [ ("two", [mkElement (Some "https://blog.example.com/first") true;
             mkElement (Some "https://blog.example.com/second") true]);
    ("blank", [mkElement (Some "") true]);
    ("bare", [mkElement None false; mkElement (Some "https://blog.example.com/first") true]);
    ("first", [mkElement (Some "https://blog.example.com/first") true]) ].

Definition responses : list (string * Exc Response) :=
  [ ("https://blog.example.com/dup", Ret (Site.page "two"));
    ("https://blog.example.com/blank", Ret (Site.page "blank"));
    ("https://blog.example.com/bare", Ret (Site.page "bare"));
    ("https://blog.example.com/first", Ret (Site.page "first"));
    ("https://blog.example.com/sitemap.xml", Ret (mkResponse 200 (Ret "posts"))) ].

Definition sitemaps : list (string * list string) :=
  [ ("posts", ["https://blog.example.com/first"; "https://blog.example.com/dup";
               "https://blog.example.com/blank"]) ].

Definition world (configured : list string) : World := {|
  fetch := fun _ target =>
    match Site.lookup target responses with
    | Some r => r
    | None => Throw (Site.refused target)
    end;
  canonicalLinks := fun html =>
    match Site.lookup html documents with Some l => l | None => [] end;
  sitemapLocs := fun xml =>
    match Site.lookup xml sitemaps with
    | Some l => Ret l
    | None => Throw "Unclosed root tag"
    end;
  loadConfig := Ret (mkConfig configured);
  getTimestamp := fun n => timestampOfISO
                    (isoString "2025" "03" "12" "21" "03" (showNat (10 + n)) "000");
  mkdirSync := fun dir =>
    if (dir =? "results/readonly.example.com")%string
    then Throw "EACCES: permission denied, mkdir 'results/readonly.example.com'"
    else Ret tt;
  writeFileSync := fun written _ _ =>
    match written with
    | [] => Ret tt
    | _ :: _ => Throw "ENOSPC: no space left on device, write"
    end
|}.

End Blog.

(** ** Vocabulary of the statements *)

(** A string that [toLowerCase] leaves alone. *)
Definition isLower (s : string) : Prop := JS.toLowerCase s = s.

(** [pat] occurs in [s] at index [i]. *)
Definition occursAt (s pat : string) (i : nat) : Prop :=
  i <= String.length s /\ String.prefix pat (JS.drop i s) = true.

(** [out] is [s] with its first occurrence of [pat], if it has one, replaced
    by [rep]. *)
Inductive ReplacedFirst (pat rep s : string) : string -> Prop :=
| rf_absent :
    (forall i, ~ occursAt s pat i) -> ReplacedFirst pat rep s s
| rf_first (a b : string) :
    s = a ++ pat ++ b ->
    (forall i, i < String.length a -> ~ occursAt s pat i) ->
    ReplacedFirst pat rep s (a ++ rep ++ b).

(** [s] holds [x]. *)
Definition Contains (s x : string) : Prop := exists a b, s = a ++ x ++ b.

(** A text that starts with a character that is neither white space nor
    [N]: every reason the evaluator appends does. *)
Definition startsReason (s : string) : bool :=
  match s with
  | EmptyString => false
  | String c _ => negb (JS.isSpace c) && negb (Ascii.eqb c "N")
  end.

(** The two variables agree: no reason with [OK], a reason with [FAIL]. *)
Definition coherent (v : Verdict) : Prop :=
  match v_status v with
  | OK => v_explanation v = ""
  | FAIL => startsReason (v_explanation v) = true
  end.

(** The effects of one more request. *)
Definition requested (e : Effects) (target : string) : Effects :=
  mkEffects (requests e ++ [target])%list (files e).

(** The row of a page whose check threw. *)
Definition fetchError (page message : string) : PageCheckResult :=
  mkResult page FAIL ("Fetch error: " ++ message).

(** The row of a page whose checks ran to the end. *)
Definition verdictRow (page : string) (v : Verdict) : PageCheckResult :=
  mkResult page (v_status v) (JS.orElse (JS.trim (v_explanation v)) "No errors").

(** What the status check makes of the answer for the canonical target. *)
Definition afterStatus (answer : Exc Response) (v : Verdict) : Verdict :=
  match answer with
  | Ret r =>
      check (isRedirect (resp_status r)) "Canonical URL is redirecting. "
        (check (negb (resp_status r =? 200)%N)
           ("Canonical URL returned status " ++ JS.showN (resp_status r) ++ ". ") v)
  | Throw m => check true ("Error fetching canonical URL: " ++ m ++ ". ") v
  end.

(** The four comparisons that close the current version of the checks. *)
Definition afterComparisons {api : URLApi} (pageUrl target : URL)
    (canonicalUrl : string) (v : Verdict) : Verdict :=
  check (negb (canonicalUrl =? JS.toLowerCase canonicalUrl)%string)
    "Canonical URL is not lowercase. "
    (check (negb (JS.startsWith canonicalUrl "http://")
            && negb (JS.startsWith canonicalUrl "https://"))
       "Canonical URL is not absolute. "
       (check (negb (protocol pageUrl =? protocol target)%string)
          "Canonical URL uses a different protocol. "
          (check (negb (hostname pageUrl =? hostname target)%string)
             "Canonical URL uses a different domain. " v))).

(** [out] is [s] up to its first [sep], or all of [s] if it has none. *)
Definition CutBefore (sep : ascii) (s out : string) : Prop :=
  JS.hasChar sep out = false
  /\ (s = out \/ exists rest, s = out ++ String sep rest).

(** [out] is [s] without its final slash, if [s] ends in one and the path of
    [p] is not the root; otherwise [out] is [s]. *)
Inductive SlashStripped {api : URLApi} (p : URL) (s : string) : string -> Prop :=
| slash_stripped (out : string) :
    s = out ++ "/" -> pathname p <> "/" -> SlashStripped p s out
| slash_kept :
    pathname p = "/" \/ (forall a, s <> a ++ "/") -> SlashStripped p s s.

(** The normal form of a parsed URL, step by step: its serialisation in lower
    case; without the final slash unless the path is the root; with the first
    [:80/] turned into [/], then the first [:443/] turned into [/], then the
    first [://www.] turned into [://]; cut before the first [?], then before
    the first [#]. *)
Definition NormalForm {api : URLApi} (p : URL) (out : string) : Prop :=
  exists stripped s80 s443 swww noQuery,
    SlashStripped p (JS.toLowerCase (toString p)) stripped
    /\ ReplacedFirst ":80/" "/" stripped s80
    /\ ReplacedFirst ":443/" "/" s80 s443
    /\ ReplacedFirst "://www." "://" s443 swww
    /\ CutBefore "?" swww noQuery
    /\ CutBefore "#" noQuery out.


(** Loading a sitemap fails with message [m]: the request is rejected, the
    body cannot be read, or the document does not parse into URLs. *)
Inductive LoadFails {world : World} (sitemapUrl : string) (e : Effects) (m : string)
  : Prop :=
| network_error :
    fetch (requests e) sitemapUrl = Throw m -> LoadFails sitemapUrl e m
| body_error (response : Response) :
    fetch (requests e) sitemapUrl = Ret response ->
    resp_text response = Throw m -> LoadFails sitemapUrl e m
| parse_error (response : Response) (xml : string) :
    fetch (requests e) sitemapUrl = Ret response ->
    resp_text response = Ret xml ->
    sitemapLocs xml = Throw m -> LoadFails sitemapUrl e m.

(** * Properties *)

(** ** Strings *)

Section StringFacts.


Lemma append_assoc (a b c : string) : (a ++ b) ++ c = a ++ (b ++ c).
Proof. induction a as [|x a IH]; simpl; [reflexivity | now rewrite IH]. Qed.

Lemma prefix_split (p s : string) :
  String.prefix p s = true -> s = p ++ JS.drop (String.length p) s.
Proof.
  revert s; induction p as [|c p IH]; intros s H; simpl.
  - reflexivity.
  - destruct s as [|d s]; simpl in H; [discriminate|].
    destruct (ascii_dec c d) as [->|]; [|discriminate].
    simpl. f_equal. now apply IH.
Qed.

Lemma prefix_append (p s : string) : String.prefix p (p ++ s) = true.
Proof.
  induction p as [|c p IH]; simpl.
  - now destruct s.
  - destruct (ascii_dec c c); [assumption | congruence].
Qed.

Lemma drop_append (p s : string) : JS.drop (String.length p) (p ++ s) = s.
Proof. induction p as [|c p IH]; simpl; [reflexivity | assumption]. Qed.

Lemma lowerChar_idem (c : ascii) : JS.lowerChar (JS.lowerChar c) = JS.lowerChar c.
Proof. destruct c as [[] [] [] [] [] [] [] []]; reflexivity. Qed.

Lemma toLowerCase_idem (s : string) :
  JS.toLowerCase (JS.toLowerCase s) = JS.toLowerCase s.
Proof.
  induction s as [|c r IH]; simpl; [reflexivity|].
  now rewrite lowerChar_idem, IH.
Qed.

Lemma toLowerCase_append (a b : string) :
  JS.toLowerCase (a ++ b) = JS.toLowerCase a ++ JS.toLowerCase b.
Proof. induction a as [|c a IH]; simpl; [reflexivity | now rewrite IH]. Qed.

Lemma isLower_cons (c : ascii) (r : string) :
  isLower (String c r) <-> JS.lowerChar c = c /\ isLower r.
Proof.
  unfold isLower; simpl; split.
  - intros H; injection H; auto.
  - intros [-> ->]; reflexivity.
Qed.

Lemma isLower_append (a b : string) : isLower a -> isLower b -> isLower (a ++ b).
Proof. unfold isLower; intros Ha Hb; now rewrite toLowerCase_append, Ha, Hb. Qed.

Lemma isLower_drop (n : nat) (s : string) : isLower s -> isLower (JS.drop n s).
Proof.
  revert s; induction n as [|n IH]; intros s H; [assumption|].
  destruct s as [|c r]; [assumption|].
  apply isLower_cons in H as [_ H]. simpl. now apply IH.
Qed.

Lemma isLower_sliceInit (s : string) : isLower s -> isLower (JS.sliceInit s).
Proof.
  induction s as [|c r IH]; intros H; [assumption|].
  apply isLower_cons in H as [Hc Hr].
  destruct r as [|d r]; [reflexivity|].
  change (isLower (String c (JS.sliceInit (String d r)))).
  apply isLower_cons; auto.
Qed.

Lemma isLower_replace (s pat rep : string) :
  isLower s -> isLower rep -> isLower (JS.replace s pat rep).
Proof.
  intros Hs Hrep; induction s as [|c r IH].
  - destruct pat; simpl; [|reflexivity].
    apply isLower_append; [assumption | reflexivity].
  - cbn [JS.replace]. destruct (String.prefix pat (String c r)).
    + apply isLower_append; [assumption | now apply isLower_drop].
    + apply isLower_cons in Hs as [Hc Hr]. apply isLower_cons; auto.
Qed.

Lemma isLower_splitHead (s : string) (sep : ascii) :
  isLower s -> isLower (JS.splitHead s sep).
Proof.
  induction s as [|c r IH]; intros H; [assumption|].
  apply isLower_cons in H as [Hc Hr]. simpl.
  destruct (Ascii.eqb c sep); [reflexivity | apply isLower_cons; auto].
Qed.

(** [splitHead] stops before the separator, so its result holds none. *)
Lemma hasChar_splitHead (s : string) (sep : ascii) :
  JS.hasChar sep (JS.splitHead s sep) = false.
Proof.
  induction s as [|c r IH]; simpl; [reflexivity|].
  destruct (Ascii.eqb c sep) eqn:E; simpl; [reflexivity|].
  now rewrite Ascii.eqb_sym, E, IH.
Qed.

Lemma hasChar_splitHead_other (s : string) (c sep : ascii) :
  JS.hasChar c s = false -> JS.hasChar c (JS.splitHead s sep) = false.
Proof.
  induction s as [|d r IH]; simpl; [reflexivity|].
  intros H; apply orb_false_iff in H as [Hd Hr].
  destruct (Ascii.eqb d sep); simpl; [reflexivity|].
  now rewrite Hd, IH.
Qed.

Lemma splitHead_absent (s : string) (sep : ascii) :
  JS.hasChar sep s = false -> JS.splitHead s sep = s.
Proof.
  induction s as [|c r IH]; simpl; [reflexivity|].
  intros H; apply orb_false_iff in H as [Hc Hr].
  rewrite Ascii.eqb_sym, Hc. now rewrite IH.
Qed.

Lemma indexOf_none_cons (c : ascii) (r pat : string) :
  JS.indexOf (String c r) pat = None ->
  String.prefix pat (String c r) = false /\ JS.indexOf r pat = None.
Proof.
  cbn [JS.indexOf]. destruct (String.prefix pat (String c r)); [discriminate|].
  destruct (JS.indexOf r pat); [discriminate | auto].
Qed.

(** Without an occurrence, [replace] changes nothing. *)
Lemma replace_absent (s pat rep : string) :
  JS.includes s pat = false -> JS.replace s pat rep = s.
Proof.
  unfold JS.includes. induction s as [|c r IH]; intros H.
  - destruct pat; simpl in *; [discriminate | reflexivity].
  - destruct (JS.indexOf (String c r) pat) eqn:E; [discriminate|].
    apply indexOf_none_cons in E as [Hp Hr].
    cbn [JS.replace]. rewrite Hp. f_equal. apply IH. now rewrite Hr.
Qed.

Lemma length_append (a b : string) :
  String.length (a ++ b) = String.length a + String.length b.
Proof. induction a as [|c a IH]; simpl; [reflexivity | now rewrite IH]. Qed.

Lemma length_drop (n : nat) (s : string) :
  String.length (JS.drop n s) = String.length s - n.
Proof.
  revert s; induction n as [|n IH]; intros [|c r]; simpl; try reflexivity.
  apply IH.
Qed.

Lemma length_prefix (p s : string) :
  String.prefix p s = true -> String.length p <= String.length s.
Proof.
  intros H. rewrite (prefix_split _ _ H), length_append. lia.
Qed.

Lemma length_sliceInit (s : string) :
  String.length (JS.sliceInit s) = String.length s - 1.
Proof.
  induction s as [|c r IH]; [reflexivity|].
  destruct r as [|d r]; [reflexivity|].
  change (S (String.length (JS.sliceInit (String d r))) = S (String.length (String d r)) - 1).
  rewrite IH. simpl. lia.
Qed.

Lemma length_splitHead (s : string) (sep : ascii) :
  String.length (JS.splitHead s sep) <= String.length s.
Proof.
  induction s as [|c r IH]; simpl; [lia|].
  destruct (Ascii.eqb c sep); simpl; lia.
Qed.

(** A replacement by a shorter text shortens the string when it finds the
    pattern, and never lengthens it. *)
Lemma length_replace (s pat rep : string) :
  String.length rep < String.length pat ->
  String.length (JS.replace s pat rep) <= String.length s
  /\ (JS.includes s pat = true ->
      String.length (JS.replace s pat rep) < String.length s).
Proof.
  intros Hlen. unfold JS.includes. induction s as [|c r IH].
  - destruct pat; simpl in *; [lia|]. split; [lia | discriminate].
  - cbn [JS.replace JS.indexOf].
    destruct (String.prefix pat (String c r)) eqn:Hp.
    + apply length_prefix in Hp.
      rewrite length_append, length_drop. split; [lia | intros _; lia].
    + destruct IH as [IHle IHlt]. simpl String.length. split; [lia|].
      destruct (JS.indexOf r pat); simpl; [intros _|discriminate].
      specialize (IHlt eq_refl). lia.
Qed.

Lemma endsWith_nonempty (s p : string) :
  p <> "" -> JS.endsWith s p = true -> 0 < String.length s.
Proof.
  unfold JS.endsWith. intros Hp H. apply andb_true_iff in H as [H _].
  apply Nat.leb_le in H. destruct p; [congruence|]. simpl in H. lia.
Qed.

Lemma replace_first (s pat rep : string) :
  pat <> "" -> ReplacedFirst pat rep s (JS.replace s pat rep).
Proof.
  intros Hpat. induction s as [|c r IH].
  - destruct pat as [|p pat]; [congruence|]. simpl. apply rf_absent.
    intros i [Hi H]. destruct i; simpl in H; discriminate.
  - cbn [JS.replace]. destruct (String.prefix pat (String c r)) eqn:Hp.
    + apply prefix_split in Hp.
      apply (rf_first pat rep _ "" (JS.drop (String.length pat) (String c r))).
      * exact Hp.
      * simpl; intros i Hi; lia.
    + inversion IH as [Hno Heq | a b Hr Hbefore Heq].
      * rewrite <- Heq at 2. apply rf_absent.
        intros [|i] [Hi H]; [unfold JS.drop in H; congruence|].
        simpl in H. apply (Hno i). split; [simpl in Hi; lia | exact H].
      * apply (rf_first pat rep _ (String c a) b).
        -- simpl. now rewrite <- Hr.
        -- intros [|i] Hi [Hle H]; [unfold JS.drop in H; congruence|].
           simpl in H. apply (Hbefore i); [simpl in Hi; lia|].
           split; [simpl in Hle; lia | exact H].
Qed.

Lemma trimEnd_cons (c : ascii) (y : string) :
  JS.isSpace c = false -> JS.trimEnd (String c y) = String c (JS.trimEnd y).
Proof. intros H; simpl. rewrite H. now destruct (JS.trimEnd y). Qed.

(** [trimEnd] keeps everything up to a character that is no white space. *)
Lemma trimEnd_append (x : string) (c : ascii) (y : string) :
  JS.isSpace c = false ->
  JS.trimEnd (x ++ String c y) = x ++ String c (JS.trimEnd y).
Proof.
  intros H; induction x as [|d x IH].
  - now apply trimEnd_cons.
  - change (JS.trimEnd (String d (x ++ String c y))
            = String d (x ++ String c (JS.trimEnd y))).
    cbn [JS.trimEnd]. rewrite IH. now destruct x.
Qed.

Lemma trimStart_startsReason (s : string) :
  startsReason s = true -> JS.trimStart s = s.
Proof.
  destruct s as [|c r]; simpl; [discriminate|].
  intros H; apply andb_true_iff in H as [H _].
  now destruct (JS.isSpace c).
Qed.

Lemma startsReason_append (a b : string) :
  startsReason a = true -> startsReason (a ++ b) = true.
Proof. destruct a; simpl; [discriminate | auto]. Qed.

(** The trimmed text of a reason list is not empty and is not the text that
    stands for no reason. *)
Lemma trim_startsReason (s : string) :
  startsReason s = true ->
  exists c r, JS.trim s = String c r /\ c <> "N"%char.
Proof.
  intros H. unfold JS.trim. rewrite (trimStart_startsReason _ H).
  destruct s as [|c r]; [discriminate|].
  simpl in H; apply andb_true_iff in H as [Hs Hn].
  exists c, (JS.trimEnd r). split.
  - apply trimEnd_cons. now destruct (JS.isSpace c).
  - intros ->. discriminate.
Qed.

(** Trimming keeps a part of the text that ends before its last
    character that is no white space. *)
Lemma trim_Contains (s a x : string) (c : ascii) (b : string) :
  startsReason s = true -> JS.isSpace c = false ->
  s = a ++ (x ++ String c "") ++ b ->
  Contains (JS.trim s) (x ++ String c "").
Proof.
  intros Hs Hc ->. unfold JS.trim. rewrite (trimStart_startsReason _ Hs).
  exists a, (JS.trimEnd b).
  rewrite !append_assoc. simpl.
  rewrite <- !append_assoc. rewrite trimEnd_append by assumption.
  now rewrite !append_assoc.
Qed.

End StringFacts.

(** Concatenations, nested to the right and computed. *)
Ltac norm_append := repeat first [rewrite !append_assoc | progress simpl].

(** ** The normaliser *)

#[global] Existing Instance Whatwg.api.

Section NormalizerFacts.
Context {api : URLApi}.

Lemma normalizeUrl_unparsed (u : string) :
  newURL u = None -> normalizeUrl u = u.
Proof. unfold normalizeUrl, normalizeTry; intros ->; reflexivity. Qed.

Lemma normalizeUrl_parsed (u : string) (p : URL) :
  newURL u = Some p -> normalizeUrl u = normalizeParsed p.
Proof. unfold normalizeUrl, normalizeTry; intros ->; reflexivity. Qed.

Lemma normalizeParsed_isLower (p : URL) : isLower (normalizeParsed p).
Proof.
  unfold normalizeParsed.
  do 2 apply isLower_splitHead.
  do 3 (apply isLower_replace; [|reflexivity]).
  assert (H : isLower (JS.toLowerCase (toString p))) by apply toLowerCase_idem.
  destruct (_ && _); [now apply isLower_sliceInit | assumption].
Qed.

Lemma normalizeParsed_no_query (p : URL) :
  JS.hasChar "?" (normalizeParsed p) = false.
Proof.
  unfold normalizeParsed.
  apply hasChar_splitHead_other, hasChar_splitHead.
Qed.

Lemma normalizeParsed_no_hash (p : URL) :
  JS.hasChar "#" (normalizeParsed p) = false.
Proof. unfold normalizeParsed. apply hasChar_splitHead. Qed.

End NormalizerFacts.

(** C4. The three examples of the specification: case and a trailing slash
    do not matter, [www.] and the default port do not matter, and the root
    slash stays. *)
Theorem normalizeUrl_spec_examples :
  normalizeUrl "https://Example.com/Page/" = normalizeUrl "https://example.com/page"
  /\ normalizeUrl "https://www.example.com:443/x" = normalizeUrl "https://example.com/x"
  /\ normalizeUrl "https://example.com/" = "https://example.com/".
Proof. repeat split; vm_compute; reflexivity. Qed.

(** C2, as stated, fails: [https://example.com/a//] is a valid absolute URL,
    one pass removes one of its two trailing slashes, the next pass the
    other. *)
Lemma normalizeUrl_not_idempotent :
  newURL "https://example.com/a//" <> None
  /\ normalizeUrl "https://example.com/a//" = "https://example.com/a/"
  /\ normalizeUrl (normalizeUrl "https://example.com/a//") = "https://example.com/a"
  /\ normalizeUrl (normalizeUrl "https://example.com/a//")
     <> normalizeUrl "https://example.com/a//".
Proof. repeat split; vm_compute; congruence. Qed.

(** C2, amended. Let [n] be the normalised form of [u], and let [n] be the
    serialisation of the URL it parses to, if it parses. A second pass
    returns [n] exactly when the first pass left nothing for it: [n] does not
    end in a slash after a path other than the root and holds none of
    [:80/], [:443/] and [://www.]. Lower case, query and fragment need no
    condition, and an [n] that does not parse is returned as it is. *)
Theorem normalizeUrl_idempotent_iff_settled {api : URLApi} (u : string) :
  (forall q, newURL (normalizeUrl u) = Some q -> toString q = normalizeUrl u) ->
  normalizeUrl (normalizeUrl u) = normalizeUrl u
  <-> (forall q, newURL (normalizeUrl u) = Some q ->
         (JS.endsWith (normalizeUrl u) "/" = true -> pathname q = "/")
         /\ JS.includes (normalizeUrl u) ":80/" = false
         /\ JS.includes (normalizeUrl u) ":443/" = false
         /\ JS.includes (normalizeUrl u) "://www." = false).
Proof.
  intros Hser.
  destruct (newURL u) as [p|] eqn:Hu.
  2: { rewrite !(normalizeUrl_unparsed u Hu). split; [|reflexivity].
       intros _ q Hq. congruence. }
  destruct (newURL (normalizeUrl u)) as [q|] eqn:Hn.
  2: { split; [intros _ q Hq; discriminate|].
       intros _. now apply normalizeUrl_unparsed. }
  assert (Hlow : JS.toLowerCase (normalizeUrl u) = normalizeUrl u).
  { rewrite (normalizeUrl_parsed _ _ Hu). apply normalizeParsed_isLower. }
  assert (Hnoq : JS.hasChar "?" (normalizeUrl u) = false).
  { rewrite (normalizeUrl_parsed _ _ Hu). apply normalizeParsed_no_query. }
  assert (Hnoh : JS.hasChar "#" (normalizeUrl u) = false).
  { rewrite (normalizeUrl_parsed _ _ Hu). apply normalizeParsed_no_hash. }
  rewrite (normalizeUrl_parsed (normalizeUrl u) q Hn).
  unfold normalizeParsed at 1. rewrite (Hser q eq_refl), Hlow.
  set (n := normalizeUrl u) in *.
  split.
  - (* a pass that returns [n] has shortened nothing *)
    intros Hfix q' Hq'. injection Hq' as <-.
    apply (f_equal String.length) in Hfix. revert Hfix.
    set (s1 := if JS.endsWith n "/" && negb (pathname q =? "/")%string
               then JS.sliceInit n else n).
    set (s2 := JS.replace s1 ":80/" "/").
    set (s3 := JS.replace s2 ":443/" "/").
    set (s4 := JS.replace s3 "://www." "://").
    pose proof (length_splitHead (JS.splitHead s4 "?") "#") as L6.
    pose proof (length_splitHead s4 "?") as L5.
    destruct (length_replace s3 "://www." "://") as [L4 L4']; [simpl; lia|].
    destruct (length_replace s2 ":443/" "/") as [L3 L3']; [simpl; lia|].
    destruct (length_replace s1 ":80/" "/") as [L2 L2']; [simpl; lia|].
    fold s4 in L4, L4'. fold s3 in L3, L3'. fold s2 in L2, L2'.
    intros Hfix.
    assert (H1 : s1 = n).
    { unfold s1 in *. destruct (JS.endsWith n "/") eqn:E; [|reflexivity].
      destruct (negb (pathname q =? "/")%string); [|reflexivity]. simpl in *.
      pose proof (length_sliceInit n) as L1.
      assert (0 < String.length n) by (eapply endsWith_nonempty; [|exact E]; discriminate).
      lia. }
    assert (H80 : JS.includes n ":80/" = false).
    { rewrite <- H1. destruct (JS.includes s1 ":80/"); [|reflexivity].
      specialize (L2' eq_refl). rewrite H1 in *. lia. }
    assert (H2 : s2 = n).
    { unfold s2. rewrite H1. now apply replace_absent. }
    assert (H443 : JS.includes n ":443/" = false).
    { rewrite <- H2. destruct (JS.includes s2 ":443/"); [|reflexivity].
      specialize (L3' eq_refl). rewrite H1, H2 in *. lia. }
    assert (H3 : s3 = n).
    { unfold s3. rewrite H2. now apply replace_absent. }
    assert (Hwww : JS.includes n "://www." = false).
    { rewrite <- H3. destruct (JS.includes s3 "://www."); [|reflexivity].
      specialize (L4' eq_refl). rewrite H1, H2, H3 in *. lia. }
    repeat split; try assumption.
    intros E. unfold s1 in H1. rewrite E in H1. simpl in H1.
    destruct (pathname q =? "/")%string eqn:Ep; [now apply String.eqb_eq|].
    simpl in H1. apply (f_equal String.length) in H1.
    rewrite length_sliceInit in H1.
    assert (0 < String.length n) by (eapply endsWith_nonempty; [|exact E]; discriminate).
    lia.
  - (* nothing fires, nothing changes *)
    intros Hsettled. destruct (Hsettled q eq_refl) as (Hslash & H80 & H443 & Hwww).
    assert (Hcond : JS.endsWith n "/" && negb (pathname q =? "/")%string = false).
    { destruct (JS.endsWith n "/"); [|reflexivity].
      rewrite (Hslash eq_refl). reflexivity. }
    rewrite Hcond.
    rewrite (replace_absent _ _ _ H80), (replace_absent _ _ _ H443),
      (replace_absent _ _ _ Hwww).
    rewrite (splitHead_absent _ _ Hnoq). now apply splitHead_absent.
Qed.

Lemma normalizeUrl_idempotent_iff_settled_witness :
  normalizeUrl "https://WWW.Example.com:443/Page?q=1#top" = "https://example.com/page"
  /\ normalizeUrl (normalizeUrl "https://WWW.Example.com:443/Page?q=1#top")
     = normalizeUrl "https://WWW.Example.com:443/Page?q=1#top".
Proof.
  split; [vm_compute; reflexivity|].
  apply (normalizeUrl_idempotent_iff_settled
           "https://WWW.Example.com:443/Page?q=1#top").
  - intros q. vm_compute. intros H; injection H as <-. reflexivity.
  - intros q. vm_compute. intros H; injection H as <-.
    repeat split. discriminate.
Defined.

(** C10, as stated, fails: the lowercased URL string of
    [https://example.com/a:80/] holds [:80/] (at index 21), but the trailing
    slash is removed before the replacement looks for it, and the result
    keeps [:80]. Likewise the [:443/] that is replaced is the first one of
    the string that the [:80/] replacement returns, which need not be the
    first one of the lowercased URL string. *)
Lemma port_literal_survives_trailing_slash :
  option_map (fun p => JS.toLowerCase (toString p)) (newURL "https://example.com/a:80/")
  = Some ("https://example.com/a" ++ ":80/")
  /\ JS.indexOf ("https://example.com/a" ++ ":80/") ":80/" = Some 21
  /\ normalizeUrl "https://example.com/a:80/" = "https://example.com/a" ++ ":80"
  /\ option_map (fun p => JS.toLowerCase (toString p))
       (newURL "https://example.com/a:443:80/b:443/c")
     = Some ("https://example.com/a:443:80/b" ++ ":443/" ++ "c")
  /\ JS.indexOf "https://example.com/a:443:80/b:443/c" ":443/" = Some 30
  /\ normalizeUrl "https://example.com/a:443:80/b:443/c"
     = "https://example.com/a/b" ++ ":443/" ++ "c".
Proof. repeat split; vm_compute; reflexivity. Qed.

(** C10, amended. For every parseable URL the replacement works on the
    lowercased URL string as the trailing-slash step left it: the first
    occurrence of [:80/] in it becomes [/], then the first occurrence of
    [:443/] in the result becomes [/], wherever they stand, the path
    included; what follows only removes [://www.], the query and the
    fragment. *)
Theorem port_literals_replaced_in_working_string {api : URLApi} (u : string) (p : URL) :
  newURL u = Some p ->
  exists working s1 s2,
    working = (if JS.endsWith (JS.toLowerCase (toString p)) "/"
                  && negb (pathname p =? "/")%string
               then JS.sliceInit (JS.toLowerCase (toString p))
               else JS.toLowerCase (toString p))
    /\ ReplacedFirst ":80/" "/" working s1
    /\ ReplacedFirst ":443/" "/" s1 s2
    /\ normalizeUrl u
       = JS.splitHead (JS.splitHead (JS.replace s2 "://www." "://") "?") "#".
Proof.
  intros H. rewrite (normalizeUrl_parsed _ _ H). unfold normalizeParsed.
  eexists; exists (JS.replace
                     (if JS.endsWith (JS.toLowerCase (toString p)) "/"
                         && negb (pathname p =? "/")%string
                      then JS.sliceInit (JS.toLowerCase (toString p))
                      else JS.toLowerCase (toString p)) ":80/" "/").
  eexists. split; [reflexivity|]. split; [|split; [|reflexivity]].
  - apply replace_first; discriminate.
  - apply replace_first; discriminate.
Qed.

Lemma port_literals_replaced_in_working_string_witness :
  normalizeUrl "https://example.com/a:80/b" = "https://example.com/a/b"
  /\ exists working s1 s2,
      working = "https://example.com/a:80/b"
      /\ ReplacedFirst ":80/" "/" working s1
      /\ ReplacedFirst ":443/" "/" s1 s2
      /\ normalizeUrl "https://example.com/a:80/b"
         = JS.splitHead (JS.splitHead (JS.replace s2 "://www." "://") "?") "#".
Proof.
  split; [vm_compute; reflexivity|].
  destruct (@port_literals_replaced_in_working_string Whatwg.api
              "https://example.com/a:80/b"
              (Whatwg.mkUrl "https" "example.com" None "/a:80/b" None None)
              eq_refl) as (w & s1 & s2 & Hw & H1 & H2 & Hn).
  exists w, s1, s2. repeat split; assumption.
Defined.

(** The parser itself drops a default port, so the replacement never meets
    one that the URL really had. *)
Example default_port_elided_by_parser :
  option_map toString (newURL "http://example.com:80/") = Some "http://example.com/"
  /\ option_map toString (newURL "https://example.com:443/") = Some "https://example.com/"
  /\ option_map toString (newURL "https://example.com:80/") = Some "https://example.com:80/".
Proof. repeat split; vm_compute; reflexivity. Qed.

(** ** The evaluator *)

Section EvaluatorFacts.
Context {api : URLApi} {world : World}.

Lemma check_coherent (cond : bool) (message : string) (v : Verdict) :
  startsReason message = true -> coherent v -> coherent (check cond message v).
Proof.
  intros Hm Hv. destruct cond; [|assumption].
  unfold coherent in *; simpl.
  destruct (v_status v).
  - now rewrite Hv.
  - now apply startsReason_append.
Qed.

Lemma check_Contains (cond : bool) (message : string) (v : Verdict) (x : string) :
  Contains (v_explanation v) x -> Contains (v_explanation (check cond message v)) x.
Proof.
  intros (a & b & H). destruct cond; [|now exists a, b].
  exists a, (b ++ message). simpl. rewrite H. now rewrite !append_assoc.
Qed.

Lemma check_true_status (message : string) (v : Verdict) :
  v_status (check true message v) = FAIL.
Proof. reflexivity. Qed.

Lemma check_keeps_FAIL (cond : bool) (message : string) (v : Verdict) :
  v_status v = FAIL -> v_status (check cond message v) = FAIL.
Proof. now destruct cond. Qed.

Lemma afterStatus_coherent (answer : Exc Response) (v : Verdict) :
  coherent v -> coherent (afterStatus answer v).
Proof.
  intros H; destruct answer; unfold afterStatus; repeat apply check_coherent;
    solve [reflexivity | assumption].
Qed.

Lemma afterComparisons_coherent (pu pc : URL) (c : string) (v : Verdict) :
  coherent v -> coherent (afterComparisons pu pc c v).
Proof.
  intros H; unfold afterComparisons; repeat apply check_coherent;
    solve [reflexivity | assumption].
Qed.

Lemma afterComparisons_Contains (pu pc : URL) (c : string) (v : Verdict) (x : string) :
  Contains (v_explanation v) x ->
  Contains (v_explanation (afterComparisons pu pc c v)) x.
Proof. intros H; unfold afterComparisons; now repeat apply check_Contains. Qed.

Lemma afterComparisons_keeps_FAIL (pu pc : URL) (c : string) (v : Verdict) :
  v_status v = FAIL -> v_status (afterComparisons pu pc c v) = FAIL.
Proof. intros H; unfold afterComparisons; now repeat apply check_keeps_FAIL. Qed.

(** The inner [try] never throws. *)
Lemma checkCanonicalStatus_run (c : string) (v : Verdict) (e : Effects) :
  checkCanonicalStatus c v e = (Ret (afterStatus (fetch (requests e) c) v), requested e c).
Proof.
  unfold checkCanonicalStatus, tryCatch, bind, doFetch, ret, afterStatus, requested.
  destruct (fetch (requests e) c); reflexivity.
Qed.

Lemma checkHref_run (page href : string) (link : Element) (v : Verdict) (e : Effects) :
  checkHref page href link v e =
  match newURLWithBase href page with
  | None => (Throw invalidUrl, e)
  | Some resolved =>
      let c := toString resolved in
      let v1 := check (negb (closest_head link))
                  "Canonical tag is not in the head section. " v in
      let v2 := afterStatus (fetch (requests e) c) v1 in
      match newURL page, newURL c with
      | Some pu, Some pc => (Ret (afterComparisons pu pc c v2), requested e c)
      | _, _ => (Throw invalidUrl, requested e c)
      end
  end.
Proof.
  unfold checkHref, bind, await, construct.
  destruct (newURLWithBase href page) as [resolved|]; [|reflexivity].
  rewrite checkCanonicalStatus_run. cbv zeta.
  destruct (newURL page) as [pu|]; [|reflexivity].
  destruct (newURL (toString resolved)) as [pc|]; reflexivity.
Qed.

Lemma checkLinks_run (page : string) (links : list Element) (e : Effects) :
  checkLinks page links e =
  match links with
  | [] => (Ret (mkVerdict FAIL "Canonical tag is missing. "), e)
  | link :: _ =>
      let v := check (1 <? List.length links) "Multiple canonical tags detected. "
                 (mkVerdict OK "") in
      match getAttribute_href link with
      | None | Some EmptyString => (Ret (check true "Canonical tag is empty. " v), e)
      | Some href => checkHref page href link v e
      end
  end.
Proof.
  unfold checkLinks. destruct links as [|link rest]; [reflexivity|].
  destruct (getAttribute_href link) as [[|c h]|]; reflexivity.
Qed.

Lemma runCanonicalChecks_run (page : string) (e : Effects) :
  runCanonicalChecks page e =
  match fetch (requests e) page with
  | Throw m => (Ret (fetchError page m), requested e page)
  | Ret response =>
      match resp_text response with
      | Throw m => (Ret (fetchError page m), requested e page)
      | Ret html =>
          match checkLinks page (canonicalLinks html) (requested e page) with
          | (Ret v, e') => (Ret (verdictRow page v), e')
          | (Throw m, e') => (Ret (fetchError page m), e')
          end
      end
  end.
Proof.
  unfold runCanonicalChecks, tryCatch, bind, doFetch, await, ret.
  fold (requested e page).
  destruct (fetch (requests e) page) as [response|m]; [|reflexivity].
  destruct (resp_text response) as [html|m]; [|reflexivity].
  destruct (checkLinks page (canonicalLinks html) (requested e page)) as [[v|m] e'];
    reflexivity.
Qed.

(** Whatever the checks return is coherent. *)
Lemma checkLinks_coherent (page : string) (links : list Element) (e e' : Effects)
    (v : Verdict) :
  checkLinks page links e = (Ret v, e') -> coherent v.
Proof.
  rewrite checkLinks_run. destruct links as [|link rest].
  - intros H; injection H as <- _. reflexivity.
  - cbv zeta.
    assert (Hv : coherent (check (1 <? List.length (link :: rest))
                             "Multiple canonical tags detected. " (mkVerdict OK ""))).
    { apply check_coherent; reflexivity. }
    assert (Hempty : forall w, coherent w -> coherent (check true "Canonical tag is empty. " w)).
    { intros w Hw; apply check_coherent; auto. }
    destruct (getAttribute_href link) as [[|c h]|].
    + intros H; injection H as <- _. apply Hempty, Hv.
    + rewrite checkHref_run.
      destruct (newURLWithBase (String c h) page) as [resolved|]; [|discriminate].
      cbv zeta.
      destruct (newURL page) as [pu|]; [|discriminate].
      destruct (newURL (toString resolved)) as [pc|]; [|discriminate].
      intros H; injection H as <- _.
      apply afterComparisons_coherent, afterStatus_coherent, check_coherent;
        [reflexivity | exact Hv].
    + intros H; injection H as <- _. apply Hempty, Hv.
Qed.

(** A coherent verdict is rendered as "No errors" exactly when it is [OK]. *)
Lemma verdictRow_iff (page : string) (v : Verdict) :
  coherent v ->
  (explanation (verdictRow page v) = "No errors" <-> status (verdictRow page v) = OK).
Proof.
  unfold coherent, verdictRow; simpl. destruct (v_status v); intros H.
  - rewrite H. split; reflexivity.
  - destruct (trim_startsReason _ H) as (c & r & -> & Hc). simpl.
    split; [|discriminate]. intros E; injection E as E _. congruence.
Qed.

End EvaluatorFacts.

(** C7. Every row the evaluator produces reads "No errors" exactly when its
    status is [OK]: each check that fires sets [FAIL] and appends a reason
    together, and the [catch] row is [FAIL] with its own text. *)
Theorem explanation_empty_iff_OK {api : URLApi} {world : World}
    (page : string) (e : Effects) :
  exists r e',
    runCanonicalChecks page e = (Ret r, e')
    /\ (explanation r = "No errors" <-> status r = OK).
Proof.
  rewrite runCanonicalChecks_run.
  assert (Herr : forall m, explanation (fetchError page m) = "No errors"
                           <-> status (fetchError page m) = OK).
  { intros m; simpl; split; discriminate. }
  destruct (fetch (requests e) page) as [response|m]; [|eauto].
  destruct (resp_text response) as [html|m]; [|eauto].
  destruct (checkLinks page (canonicalLinks html) (requested e page))
    as [[v|m] e'] eqn:Hlinks; [|eauto].
  exists (verdictRow page v), e'. split; [reflexivity|].
  apply verdictRow_iff. eapply checkLinks_coherent; eassumption.
Qed.

(** C6. A page whose document has no canonical link gets [FAIL] with the
    missing-tag reason alone, and nothing more is requested: the checks that
    need an [href] do not run. *)
Theorem missing_canonical_is_the_only_reason {api : URLApi} {world : World}
    (page : string) (e : Effects) (response : Response) (html : string) :
  fetch (requests e) page = Ret response ->
  resp_text response = Ret html ->
  canonicalLinks html = [] ->
  runCanonicalChecks page e
  = (Ret (mkResult page FAIL "Canonical tag is missing."), requested e page).
Proof.
  intros Hf Ht Hl. rewrite runCanonicalChecks_run, Hf, Ht, Hl, checkLinks_run.
  reflexivity.
Qed.

Lemma missing_canonical_is_the_only_reason_witness :
  @runCanonicalChecks Whatwg.api (Site.world []) "https://example.com/none" noEffects
  = (Ret (mkResult "https://example.com/none" FAIL "Canonical tag is missing."),
     mkEffects ["https://example.com/none"] []).
Proof.
  apply (@missing_canonical_is_the_only_reason Whatwg.api (Site.world [])
           "https://example.com/none" noEffects (Site.page "none") "none");
    reflexivity.
Defined.

(** C5. When the request for the canonical target answers 301, 302, 307 or
    308, the status check appends the bad-status reason with the code and
    then the redirect reason, both on the same response; the row of the page
    is [FAIL] and holds the two, one after the other. *)
Theorem redirect_status_appends_both_reasons {api : URLApi} {world : World}
    (page href : string) (link : Element) (rest : list Element)
    (response answer : Response) (html : string) (resolved pageUrl target : URL)
    (e : Effects) :
  fetch (requests e) page = Ret response ->
  resp_text response = Ret html ->
  canonicalLinks html = link :: rest ->
  getAttribute_href link = Some href -> href <> "" ->
  newURLWithBase href page = Some resolved ->
  fetch (requests (requested e page)) (toString resolved) = Ret answer ->
  In (resp_status answer) [301; 302; 307; 308]%N ->
  newURL page = Some pageUrl ->
  newURL (toString resolved) = Some target ->
  (forall v,
      checkCanonicalStatus (toString resolved) v (requested e page)
      = (Ret (mkVerdict FAIL
                (v_explanation v
                 ++ ("Canonical URL returned status "
                     ++ JS.showN (resp_status answer) ++ ". ")
                 ++ "Canonical URL is redirecting. ")),
         requested (requested e page) (toString resolved)))
  /\ exists r e',
      runCanonicalChecks page e = (Ret r, e')
      /\ status r = FAIL
      /\ Contains (explanation r)
           ("Canonical URL returned status " ++ JS.showN (resp_status answer)
            ++ ". Canonical URL is redirecting.").
Proof.
  intros Hf Ht Hl Hh Hne Hr Hc Hin Hp Hq.
  assert (Hcodes : isRedirect (resp_status answer) = true
                   /\ (resp_status answer =? 200)%N = false).
  { simpl in Hin. destruct Hin as [<-|[<-|[<-|[<-|[]]]]]; split; reflexivity. }
  destruct Hcodes as [Hred H200].
  assert (Hstep : forall v,
             afterStatus (Ret answer) v
             = mkVerdict FAIL
                 (v_explanation v
                  ++ ("Canonical URL returned status "
                      ++ JS.showN (resp_status answer) ++ ". ")
                  ++ "Canonical URL is redirecting. ")).
  { intros v. unfold afterStatus. rewrite Hred, H200. simpl.
    now rewrite append_assoc. }
  split.
  - intros v. rewrite checkCanonicalStatus_run, Hc. now rewrite Hstep.
  - rewrite runCanonicalChecks_run, Hf, Ht, Hl, checkLinks_run. cbv zeta.
    rewrite Hh.
    assert (Hgo : forall v,
               checkHref page href link v (requested e page)
               = (Ret (afterComparisons pageUrl target (toString resolved)
                         (afterStatus (Ret answer)
                            (check (negb (closest_head link))
                               "Canonical tag is not in the head section. " v))),
                  requested (requested e page) (toString resolved))).
    { intros v. rewrite checkHref_run, Hr. cbv zeta. now rewrite Hc, Hp, Hq. }
    destruct href as [|c h]; [congruence|]. rewrite Hgo.
    eexists; eexists; split; [reflexivity|].
    set (v1 := check (negb (closest_head link)) _ _).
    assert (Hv1 : coherent v1).
    { unfold v1. repeat apply check_coherent; reflexivity. }
    set (v3 := afterComparisons _ _ _ _).
    assert (Hv3 : coherent v3).
    { unfold v3. now apply afterComparisons_coherent, afterStatus_coherent. }
    assert (Hfail : v_status v3 = FAIL).
    { unfold v3. apply afterComparisons_keeps_FAIL. now rewrite Hstep. }
    split; [exact Hfail|].
    assert (Hcont : Contains (v_explanation v3)
                      (("Canonical URL returned status " ++ JS.showN (resp_status answer)
                        ++ ". Canonical URL is redirecting") ++ String "." "")).
    { unfold v3. apply afterComparisons_Contains. rewrite Hstep. simpl.
      exists (v_explanation v1), " ". now norm_append. }
    destruct Hcont as (a & b & Hab).
    unfold coherent in Hv3. rewrite Hfail in Hv3.
    pose proof (trim_Contains _ a _ "."%char b Hv3 eq_refl Hab) as Ht'.
    simpl. destruct (trim_startsReason _ Hv3) as (c0 & r0 & Htrim & _).
    rewrite Htrim in *. simpl.
    destruct Ht' as (a' & b' & Hab'). exists a', b'. rewrite Hab'.
    now norm_append.
Qed.

Lemma redirect_status_appends_both_reasons_witness :
  exists r e',
    @runCanonicalChecks Whatwg.api (Site.world []) "https://example.com/old" noEffects
    = (Ret r, e')
    /\ status r = FAIL
    /\ Contains (explanation r)
         "Canonical URL returned status 301. Canonical URL is redirecting.".
Proof.
  apply (@redirect_status_appends_both_reasons Whatwg.api (Site.world [])
           "https://example.com/old" "/moved" (mkElement (Some "/moved") true) []
           (Site.page "to-moved") (mkResponse 301 (Ret "")) "to-moved"
           (Whatwg.mkUrl "https" "example.com" None "/moved" None None)
           (Whatwg.mkUrl "https" "example.com" None "/old" None None)
           (Whatwg.mkUrl "https" "example.com" None "/moved" None None)
           noEffects);
    try reflexivity.
  - discriminate.
  - simpl; auto.
Defined.

Lemma Ret_pair_inj {A} (a b : A) (e e' : Effects) :
  (Ret a, e) = (Ret b, e') -> a = b.
Proof. congruence. Qed.

Lemma runCanonicalChecks_returns {api : URLApi} {world : World}
    (page : string) (e : Effects) :
  exists r e', runCanonicalChecks page e = (Ret r, e') /\ url r = page.
Proof.
  rewrite runCanonicalChecks_run.
  destruct (fetch (requests e) page) as [response|m]; [|eauto].
  destruct (resp_text response) as [html|m]; [|eauto].
  destruct (checkLinks page (canonicalLinks html) (requested e page)) as [[v|m] e'];
    eauto.
Qed.

Lemma checkAll_returns {api : URLApi} {world : World}
    (urls : list string) (e : Effects) :
  exists rs e', checkAll urls e = (Ret rs, e') /\ map url rs = urls.
Proof.
  revert e; induction urls as [|u rest IH]; intros e.
  - exists [], e. split; reflexivity.
  - destruct (runCanonicalChecks_returns u e) as (r & e1 & Hr & Hu).
    destruct (IH e1) as (rs & e2 & Hrs & Hmap).
    exists (r :: rs), e2. simpl. unfold bind, ret.
    rewrite Hr, Hrs. split; [reflexivity|]. simpl. now rewrite Hu, Hmap.
Qed.

(** C3. The check of a page always returns one row for that page and never
    throws. When the request for the page or the reading of its body fails,
    or the [href] does not resolve, the row is [FAIL] with the message of the
    error after "Fetch error: ". When the request for the canonical target
    fails, the row is [FAIL] and holds that message in an "Error fetching
    canonical URL" reason; should [new URL] then throw on the page URL or on
    the canonical URL, the row is the "Fetch error" row of that error. So the
    loop over the URLs of a sitemap gets one row per URL, in order. *)
Theorem failures_become_one_FAIL_row {api : URLApi} {world : World} :
  (forall page e,
      exists r e',
        runCanonicalChecks page e = (Ret r, e') /\ url r = page
        /\ (forall m, fetch (requests e) page = Throw m -> r = fetchError page m)
        /\ (forall response m,
               fetch (requests e) page = Ret response ->
               resp_text response = Throw m -> r = fetchError page m)
        /\ (forall response html link rest href,
               fetch (requests e) page = Ret response ->
               resp_text response = Ret html ->
               canonicalLinks html = link :: rest ->
               getAttribute_href link = Some href -> href <> "" ->
               (newURLWithBase href page = None -> r = fetchError page invalidUrl)
               /\ (forall resolved m,
                      newURLWithBase href page = Some resolved ->
                      fetch (requests (requested e page)) (toString resolved) = Throw m ->
                      status r = FAIL
                      /\ (newURL page <> None ->
                          newURL (toString resolved) <> None ->
                          Contains (explanation r)
                            ("Error fetching canonical URL: " ++ m ++ "."))
                      /\ (newURL page = None \/ newURL (toString resolved) = None ->
                          r = fetchError page invalidUrl))))
  /\ (forall urls e,
         exists rs e', checkAll urls e = (Ret rs, e') /\ map url rs = urls).
Proof.
  split; [|intros urls e; apply checkAll_returns].
  intros page e.
  destruct (runCanonicalChecks_returns page e) as (r & e' & Hrun & Hurl).
  exists r, e'. split; [exact Hrun|]. split; [exact Hurl|]. clear Hurl.
  rewrite runCanonicalChecks_run in Hrun.
  split; [|split].
  - intros m Hm. rewrite Hm in Hrun. now apply Ret_pair_inj in Hrun; subst r.
  - intros response m Hf Ht. rewrite Hf, Ht in Hrun. now apply Ret_pair_inj in Hrun; subst r.
  - intros response html link rest href Hf Ht Hl Hh Hne.
    rewrite Hf, Ht, Hl, checkLinks_run in Hrun. cbv zeta in Hrun.
    rewrite Hh in Hrun. destruct href as [|c h]; [congruence|].
    rewrite checkHref_run in Hrun. split.
    + intros Hnone. rewrite Hnone in Hrun. now apply Ret_pair_inj in Hrun; subst r.
    + intros resolved m Hsome Hc. rewrite Hsome in Hrun. cbv zeta in Hrun.
      rewrite Hc in Hrun.
      destruct (newURL page) as [pu|].
      2: { apply Ret_pair_inj in Hrun; subst r.
           split; [reflexivity | split; [congruence | reflexivity]]. }
      destruct (newURL (toString resolved)) as [pc|].
      2: { apply Ret_pair_inj in Hrun; subst r.
           split; [reflexivity | split; [congruence | reflexivity]]. }
      apply Ret_pair_inj in Hrun. rewrite <- Hrun. clear Hrun.
      set (v1 := check (negb (closest_head link)) _ _).
      set (v3 := afterComparisons _ _ _ _).
      assert (Hv1 : coherent v1).
      { unfold v1. repeat apply check_coherent; reflexivity. }
      assert (Hv3 : coherent v3).
      { unfold v3. now apply afterComparisons_coherent, afterStatus_coherent. }
      assert (Hfail : v_status v3 = FAIL).
      { unfold v3. now apply afterComparisons_keeps_FAIL. }
      split; [exact Hfail|].
      split; [intros _ _ | intros [H|H]; discriminate].
      assert (Hcont : Contains (v_explanation v3)
                        (("Error fetching canonical URL: " ++ m) ++ String "." "")).
      { unfold v3. apply afterComparisons_Contains. unfold afterStatus, check.
        exists (v_explanation v1), " ". now norm_append. }
      destruct Hcont as (a & b & Hab).
      unfold coherent in Hv3. rewrite Hfail in Hv3.
      pose proof (trim_Contains _ a _ "."%char b Hv3 eq_refl Hab) as Ht'.
      simpl. destruct (trim_startsReason _ Hv3) as (c0 & r0 & Htrim & _).
      rewrite Htrim in *. simpl.
      destruct Ht' as (a' & b' & Hab'). exists a', b'. rewrite Hab'.
      now norm_append.
Qed.

Lemma failures_become_one_FAIL_row_witness :
  exists r e',
    @runCanonicalChecks Whatwg.api (Site.world []) "https://example.com/lost" noEffects
    = (Ret r, e')
    /\ url r = "https://example.com/lost"
    /\ status r = FAIL
    /\ Contains (explanation r)
         ("Error fetching canonical URL: "
          ++ Site.refused "https://offline.example.com/x" ++ ".").
Proof.
  destruct (proj1 (@failures_become_one_FAIL_row Whatwg.api (Site.world []))
              "https://example.com/lost" noEffects)
    as (r & e' & Hrun & Hurl & _ & _ & Hlink).
  exists r, e'. split; [exact Hrun|]. split; [exact Hurl|].
  destruct (Hlink (Site.page "to-offline") "to-offline"
              (mkElement (Some "https://offline.example.com/x") true) []
              "https://offline.example.com/x" eq_refl eq_refl eq_refl eq_refl)
    as [_ Hfetch]; [discriminate|].
  destruct (Hfetch (Whatwg.mkUrl "https" "offline.example.com" None "/x" None None)
              (Site.refused "https://offline.example.com/x") eq_refl eq_refl)
    as (Hfail & Hmsg & _).
  split; [exact Hfail|]. apply Hmsg; discriminate.
Defined.

(** C9, as stated, fails: [runCanonicalChecks] takes the page URL and nothing
    else. On a page whose canonical link names another page of the same site
    (in the head, answering 200, lowercase) the current version answers [OK],
    and the earlier version answers [FAIL]: each has its policy written in,
    and neither has a setting for the other. *)
Lemma self_reference_policy_has_no_flag :
  fst (@runCanonicalChecks Whatwg.api (Site.world []) "https://example.com/a" noEffects)
  = Ret (mkResult "https://example.com/a" OK "No errors")
  /\ fst (@Earlier.runCanonicalChecks Whatwg.api (Site.world [])
            "https://example.com/a" noEffects)
     = Ret (mkResult "https://example.com/a" FAIL
              "Canonical URL does not reference itself.").
Proof. split; vm_compute; reflexivity. Qed.

(** C9, amended. The self-reference policy is fixed in the code of each
    version. For a page with one canonical link, in the head, whose target
    answers 200 and is absolute, lowercase, on the host and protocol of the
    page: the current version answers [OK] whether or not the target is the
    page itself; the earlier version answers [OK] only if the target is the
    page itself, and otherwise [FAIL] with the self-reference reason. *)
Theorem self_reference_policy_fixed_per_version {api : URLApi} {world : World}
    (page href : string) (link : Element) (response answer : Response)
    (html : string) (resolved pageUrl target : URL) (e : Effects) :
  fetch (requests e) page = Ret response ->
  resp_text response = Ret html ->
  canonicalLinks html = [link] ->
  getAttribute_href link = Some href -> href <> "" ->
  closest_head link = true ->
  newURLWithBase href page = Some resolved ->
  fetch (requests (requested e page)) (toString resolved) = Ret answer ->
  resp_status answer = 200%N ->
  newURL page = Some pageUrl ->
  newURL (toString resolved) = Some target ->
  hostname pageUrl = hostname target ->
  protocol pageUrl = protocol target ->
  JS.startsWith (toString resolved) "http://" = true
  \/ JS.startsWith (toString resolved) "https://" = true ->
  toString resolved = JS.toLowerCase (toString resolved) ->
  fst (runCanonicalChecks page e) = Ret (mkResult page OK "No errors")
  /\ fst (Earlier.runCanonicalChecks page e)
     = Ret (if (toString resolved =? page)%string
            then mkResult page OK "No errors"
            else mkResult page FAIL "Canonical URL does not reference itself.").
Proof.
  intros Hf Ht Hl Hh Hne Hhead Hr Hc H200 Hp Hq Hhost Hproto Habs Hlow.
  assert (Habs' : negb (JS.startsWith (toString resolved) "http://")
                  && negb (JS.startsWith (toString resolved) "https://") = false).
  { destruct Habs as [-> | ->]; [reflexivity | apply andb_false_r]. }
  assert (Hlow' : (toString resolved =? JS.toLowerCase (toString resolved))%string = true).
  { rewrite <- Hlow. apply String.eqb_refl. }
  destruct href as [|c h]; [congruence|].
  split.
  - rewrite runCanonicalChecks_run, Hf, Ht, Hl, checkLinks_run. cbv zeta.
    rewrite Hh, checkHref_run, Hr. cbv zeta. rewrite Hc, Hp, Hq.
    unfold afterComparisons, afterStatus. rewrite H200, Hhead, Hhost, Hproto, Habs', Hlow'.
    rewrite !String.eqb_refl. reflexivity.
  - unfold Earlier.runCanonicalChecks, Earlier.checkLinks, Earlier.checkHref,
      tryCatch, bind, doFetch, await, construct, ret.
    fold (requested e page). rewrite Hf, Ht, Hl, Hh, Hr.
    rewrite checkCanonicalStatus_run, Hc, Hp, Hq.
    unfold afterStatus. rewrite H200, Hhead, Hhost, Hproto, Habs', Hlow'.
    rewrite !String.eqb_refl.
    destruct (toString resolved =? page)%string; reflexivity.
Qed.

Lemma self_reference_policy_fixed_per_version_witness :
  fst (@runCanonicalChecks Whatwg.api (Site.world []) "https://example.com/a" noEffects)
  = Ret (mkResult "https://example.com/a" OK "No errors")
  /\ fst (@Earlier.runCanonicalChecks Whatwg.api (Site.world [])
            "https://example.com/a" noEffects)
     = Ret (if ("https://example.com/b" =? "https://example.com/a")%string
            then mkResult "https://example.com/a" OK "No errors"
            else mkResult "https://example.com/a" FAIL
                   "Canonical URL does not reference itself.").
Proof.
  apply (@self_reference_policy_fixed_per_version Whatwg.api (Site.world [])
           "https://example.com/a" "https://example.com/b"
           (mkElement (Some "https://example.com/b") true)
           (Site.page "to-b") (Site.page "none") "to-b"
           (Whatwg.mkUrl "https" "example.com" None "/b" None None)
           (Whatwg.mkUrl "https" "example.com" None "/a" None None)
           (Whatwg.mkUrl "https" "example.com" None "/b" None None)
           noEffects);
    try reflexivity.
  - discriminate.
  - right; reflexivity.
Defined.

(** ** The audit loop *)

Section OrchestratorFacts.
Context {api : URLApi} {world : World}.

Lemma fetchSitemapUrls_fails (sitemapUrl : string) (e : Effects) (m : string) :
  LoadFails sitemapUrl e m ->
  fetchSitemapUrls sitemapUrl e = (Throw m, requested e sitemapUrl).
Proof.
  unfold fetchSitemapUrls, bind, doFetch, await, ret. fold (requested e sitemapUrl).
  intros [H | response H Ht | response xml H Ht Hx].
  - now rewrite H.
  - now rewrite H, Ht.
  - now rewrite H, Ht, Hx.
Qed.

Lemma runCanonicalChecks_files (page : string) (e : Effects) :
  files (snd (runCanonicalChecks page e)) = files e.
Proof.
  rewrite runCanonicalChecks_run.
  destruct (fetch (requests e) page) as [response|m]; [|reflexivity].
  destruct (resp_text response) as [html|m]; [|reflexivity].
  rewrite checkLinks_run.
  destruct (canonicalLinks html) as [|link rest]; [reflexivity|]. cbv zeta.
  destruct (getAttribute_href link) as [[|c h]|]; try reflexivity.
  rewrite checkHref_run.
  destruct (newURLWithBase (String c h) page) as [resolved|]; [|reflexivity].
  cbv zeta. destruct (newURL page); [|reflexivity].
  destruct (newURL (toString resolved)); reflexivity.
Qed.

Lemma checkAll_files (urls : list string) (e : Effects) :
  files (snd (checkAll urls e)) = files e.
Proof.
  revert e; induction urls as [|u rest IH]; intros e; [reflexivity|].
  simpl. unfold bind, ret.
  pose proof (runCanonicalChecks_files u e) as Hu.
  destruct (runCanonicalChecks u e) as [[r|m] e1]; simpl in Hu; [|exact Hu].
  pose proof (IH e1) as Hrest.
  destruct (checkAll rest e1) as [[rs|m] e2]; simpl in *; congruence.
Qed.

(** A sitemap that is audited to the end leaves exactly one more file. *)
Lemma auditSitemaps_files (sitemaps : list string) (grand after : Totals)
    (e e1 : Effects) :
  auditSitemaps sitemaps grand e = (Ret after, e1) ->
  List.length (files e1) = List.length (files e) + List.length sitemaps.
Proof.
  revert grand e; induction sitemaps as [|s rest IH]; intros grand e.
  - simpl. unfold ret. intros H; injection H as _ <-. lia.
  - cbn [auditSitemaps]. unfold bind at 1. unfold getDomainName, bind, await, ret.
    destruct (construct (newURL s)) as [parsed|m]; [|discriminate].
    unfold fetchSitemapUrls, bind, doFetch, await, ret.
    destruct (fetch (requests e) s) as [response|m]; [|discriminate].
    destruct (resp_text response) as [xml|m]; [|discriminate].
    destruct (sitemapLocs xml) as [urls|m]; [|discriminate].
    fold (requested e s).
    pose proof (checkAll_files urls (requested e s)) as Hfiles.
    destruct (checkAll urls (requested e s)) as [[results|m] e2]; [|discriminate].
    unfold saveResultsToCSV, bind, makeDir, await, readClock, writeFile, ret.
    destruct (mkdirSync _); [|discriminate].
    destruct (writeFileSync _ _ _); [|discriminate].
    intros H. apply IH in H. simpl in H, Hfiles.
    rewrite H, length_app, Hfiles. simpl. lia.
Qed.

Lemma auditSitemaps_app (done rest : list string) (grand : Totals) (e : Effects) :
  auditSitemaps (done ++ rest) grand e =
  match auditSitemaps done grand e with
  | (Ret after, e1) => auditSitemaps rest after e1
  | (Throw m, e1) => (Throw m, e1)
  end.
Proof.
  revert grand e; induction done as [|s done IH]; intros grand e; [reflexivity|].
  cbn [List.app auditSitemaps]. unfold bind.
  destruct (getDomainName s e) as [[domain|m] e1]; [|reflexivity].
  destruct (fetchSitemapUrls s e1) as [[urls|m] e2]; [|reflexivity].
  destruct (checkAll urls e2) as [[results|m] e3]; [|reflexivity].
  destruct (saveResultsToCSV results domain (getSitemapName s) e3) as [[t|m] e4];
    [|reflexivity].
  apply IH.
Qed.

End OrchestratorFacts.

(** C1, as stated, fails: with a first sitemap whose host does not resolve
    and a second one that is fine, [runAudit] throws on the first, requests
    nothing else and writes no report; the second sitemap alone gets its
    report. *)
Lemma sitemap_failure_stops_the_run :
  @runAudit Whatwg.api
    (Site.world ["https://down.example.org/sitemap.xml"; "https://example.com/news.xml"])
    noEffects
  = (Throw (Site.refused "https://down.example.org/sitemap.xml"),
     mkEffects ["https://down.example.org/sitemap.xml"] [])
  /\ map fst (files (snd (@runAudit Whatwg.api
                             (Site.world ["https://example.com/news.xml"]) noEffects)))
     = ["results/example.com/news_20250312210307.csv"].
Proof. split; vm_compute; reflexivity. Qed.

(** C1, amended. A failure (network or parse error) while loading one
    sitemap is not caught: [runAudit] throws it and the run ends there. The
    sitemaps before it have their reports, one file each; the failing sitemap
    adds its request and no file; no later sitemap is processed. *)
Theorem sitemap_load_failure_ends_run {api : URLApi} {world : World}
    (config : Config) (done rest : list string) (failing : string)
    (after : Totals) (e e1 : Effects) (parsed : URL) (m : string) :
  loadConfig = Ret config ->
  sitemapUrls config = (done ++ failing :: rest)%list ->
  auditSitemaps done (mkTotals 0 0 0) e = (Ret after, e1) ->
  newURL failing = Some parsed ->
  LoadFails failing e1 m ->
  runAudit e = (Throw m, requested e1 failing)
  /\ files (requested e1 failing) = files e1
  /\ List.length (files e1) = List.length (files e) + List.length done.
Proof.
  intros Hcfg Hurls Hdone Hparsed Hload.
  split; [|split; [reflexivity | eapply auditSitemaps_files; eassumption]].
  unfold runAudit, bind, await. rewrite Hcfg, Hurls, auditSitemaps_app, Hdone.
  cbn [auditSitemaps]. unfold bind at 1. unfold getDomainName, bind, await, ret.
  rewrite Hparsed. simpl construct. cbv iota beta.
  now rewrite (fetchSitemapUrls_fails _ _ _ Hload).
Qed.

Lemma sitemap_load_failure_ends_run_witness :
  fst (@runAudit Whatwg.api
         (Site.world ["https://example.com/sitemap.xml";
                      "https://example.com/broken.xml";
                      "https://example.com/news.xml"]) noEffects)
  = Throw "Unclosed root tag"
  /\ map fst (files (snd (@runAudit Whatwg.api
                (Site.world ["https://example.com/sitemap.xml";
                             "https://example.com/broken.xml";
                             "https://example.com/news.xml"]) noEffects)))
     = ["results/example.com/sitemap_20250312210307.csv"].
Proof.
  pose (cfg := ["https://example.com/sitemap.xml"; "https://example.com/broken.xml";
                "https://example.com/news.xml"]).
  pose (e1 := snd (@auditSitemaps Whatwg.api (Site.world cfg)
                     ["https://example.com/sitemap.xml"] (mkTotals 0 0 0) noEffects)).
  destruct (@sitemap_load_failure_ends_run Whatwg.api (Site.world cfg)
              (mkConfig cfg) ["https://example.com/sitemap.xml"]
              ["https://example.com/news.xml"] "https://example.com/broken.xml"
              (mkTotals 1 1 2) noEffects e1
              (Whatwg.mkUrl "https" "example.com" None "/broken.xml" None None)
              "Unclosed root tag") as (Hrun & _ & _).
  - reflexivity.
  - reflexivity.
  - vm_compute; reflexivity.
  - reflexivity.
  - apply (parse_error _ _ _ (mkResponse 200 (Ret "<urlset")) "<urlset"); reflexivity.
  - fold cfg. rewrite Hrun. split; vm_compute; reflexivity.
Defined.

(** * Further properties of the code *)

(** ** Equivalence of URLs *)

(** X1. [areUrlsEquivalent] is an equivalence relation on strings, whatever
    the URL parser: it compares normal forms. *)
Theorem areUrlsEquivalent_equivalence {api : URLApi} :
  (forall u, areUrlsEquivalent u u = true)
  /\ (forall u v, areUrlsEquivalent u v = areUrlsEquivalent v u)
  /\ (forall u v w,
         areUrlsEquivalent u v = true -> areUrlsEquivalent v w = true ->
         areUrlsEquivalent u w = true).
Proof.
  unfold areUrlsEquivalent. repeat split.
  - intros u. apply String.eqb_refl.
  - intros u v. apply String.eqb_sym.
  - intros u v w Huv Hvw.
    apply String.eqb_eq in Huv, Hvw. apply String.eqb_eq. congruence.
Qed.

(** X2. Letter case never separates two URLs: when the serialisations of two
    parsed URLs are equal once lowercased, and both paths or neither is the
    root, the URLs are equivalent, so paths that differ only in case are
    taken for the same page. *)
Theorem equivalent_up_to_case {api : URLApi} (u v : string) (p q : URL) :
  newURL u = Some p -> newURL v = Some q ->
  JS.toLowerCase (toString p) = JS.toLowerCase (toString q) ->
  (pathname p =? "/")%string = (pathname q =? "/")%string ->
  areUrlsEquivalent u v = true.
Proof.
  intros Hu Hv Hlow Hroot. unfold areUrlsEquivalent.
  rewrite (normalizeUrl_parsed _ _ Hu), (normalizeUrl_parsed _ _ Hv).
  unfold normalizeParsed. rewrite Hlow, Hroot. apply String.eqb_refl.
Qed.

Lemma equivalent_up_to_case_witness :
  areUrlsEquivalent "https://example.com/Docs/Intro" "https://example.com/docs/intro"
  = true.
Proof.
  apply (@equivalent_up_to_case Whatwg.api
           "https://example.com/Docs/Intro" "https://example.com/docs/intro"
           (Whatwg.mkUrl "https" "example.com" None "/Docs/Intro" None None)
           (Whatwg.mkUrl "https" "example.com" None "/docs/intro" None None));
    reflexivity.
Defined.

Lemma length_toLowerCase (s : string) :
  String.length (JS.toLowerCase s) = String.length s.
Proof. induction s as [|c r IH]; simpl; [reflexivity | now rewrite IH]. Qed.

(** X3. The normal form of a URL that parses is never longer than its
    serialisation: every step of the pipeline keeps or shortens the text. *)
Theorem normalizeUrl_never_longer {api : URLApi} (u : string) (p : URL) :
  newURL u = Some p ->
  String.length (normalizeUrl u) <= String.length (toString p).
Proof.
  intros Hu. rewrite (normalizeUrl_parsed _ _ Hu). unfold normalizeParsed.
  set (s0 := JS.toLowerCase (toString p)).
  set (s1 := if JS.endsWith s0 "/" && negb (pathname p =? "/")%string
             then JS.sliceInit s0 else s0).
  set (s2 := JS.replace s1 ":80/" "/").
  set (s3 := JS.replace s2 ":443/" "/").
  set (s4 := JS.replace s3 "://www." "://").
  pose proof (length_splitHead (JS.splitHead s4 "?") "#") as L6.
  pose proof (length_splitHead s4 "?") as L5.
  destruct (length_replace s3 "://www." "://") as [L4 _]; [simpl; lia|].
  destruct (length_replace s2 ":443/" "/") as [L3 _]; [simpl; lia|].
  destruct (length_replace s1 ":80/" "/") as [L2 _]; [simpl; lia|].
  fold s4 in L4. fold s3 in L3. fold s2 in L2.
  assert (L1 : String.length s1 <= String.length s0).
  { unfold s1. destruct (_ && _); [rewrite length_sliceInit|]; lia. }
  assert (L0 : String.length s0 = String.length (toString p))
    by apply length_toLowerCase.
  lia.
Qed.

Lemma normalizeUrl_never_longer_witness :
  String.length (normalizeUrl "https://WWW.Example.com:443/Page/?q=1#top")
  <= String.length "https://www.example.com/Page/?q=1#top".
Proof.
  apply (@normalizeUrl_never_longer Whatwg.api
           "https://WWW.Example.com:443/Page/?q=1#top"
           (Whatwg.mkUrl "https" "www.example.com" None "/Page/" (Some "q=1")
              (Some "top"))).
  reflexivity.
Defined.

(** ** The evaluator, further *)

Section EvaluatorMore.
Context {api : URLApi} {world : World}.

Lemma check_OK_inv (cond : bool) (message : string) (v : Verdict) :
  v_status (check cond message v) = OK ->
  cond = false /\ v_status v = OK /\ check cond message v = v.
Proof. destruct cond; simpl; [discriminate | auto]. Qed.




Lemma afterStatus_OK_inv (answer : Exc Response) (v : Verdict) :
  v_status (afterStatus answer v) = OK ->
  exists r, answer = Ret r /\ resp_status r = 200%N
            /\ v_status v = OK /\ afterStatus answer v = v.
Proof.
  destruct answer as [r|m]; unfold afterStatus; [|discriminate].
  intros H. apply check_OK_inv in H as (_ & H & E2).
  apply check_OK_inv in H as (H200 & Hv & E1).
  exists r. repeat split; try assumption.
  - apply negb_false_iff in H200. now apply N.eqb_eq.
  - now rewrite E2, E1.
Qed.

Lemma afterComparisons_OK_inv (pu pc : URL) (c : string) (v : Verdict) :
  v_status (afterComparisons pu pc c v) = OK ->
  hostname pu = hostname pc /\ protocol pu = protocol pc
  /\ (JS.startsWith c "http://" = true \/ JS.startsWith c "https://" = true)
  /\ c = JS.toLowerCase c
  /\ v_status v = OK /\ afterComparisons pu pc c v = v.
Proof.
  unfold afterComparisons. intros H.
  apply check_OK_inv in H as (Hlow & H & E4).
  apply check_OK_inv in H as (Habs & H & E3).
  apply check_OK_inv in H as (Hproto & H & E2).
  apply check_OK_inv in H as (Hhost & Hv & E1).
  apply negb_false_iff in Hlow, Hproto, Hhost.
  apply String.eqb_eq in Hlow, Hproto, Hhost.
  repeat split; try assumption.
  - destruct (JS.startsWith c "http://"); [now left|].
    destruct (JS.startsWith c "https://"); [now right | discriminate].
  - now rewrite E4, E3, E2, E1.
Qed.

Lemma Earlier_checkHref_run (page href : string) (link : Element) (v : Verdict)
    (e : Effects) :
  Earlier.checkHref page href link v e =
  match newURLWithBase href page with
  | None => (Throw invalidUrl, e)
  | Some resolved =>
      let c := toString resolved in
      let v1 := check (negb (closest_head link))
                  "Canonical tag is not in the head section. " v in
      let v2 := afterStatus (fetch (requests e) c) v1 in
      let v3 := check (negb (JS.startsWith c "http://")
                       && negb (JS.startsWith c "https://"))
                  "Canonical URL is not absolute. "
                  (check (negb (c =? page)%string)
                     "Canonical URL does not reference itself. " v2) in
      match newURL page, newURL c with
      | Some pu, Some pc =>
          (Ret (check (negb (c =? JS.toLowerCase c)%string)
                  "Canonical URL is not lowercase. "
                  (check (negb (protocol pu =? protocol pc)%string)
                     "Canonical URL uses a different protocol. "
                     (check (negb (hostname pu =? hostname pc)%string)
                        "Canonical URL uses a different domain. " v3))),
           requested e c)
      | _, _ => (Throw invalidUrl, requested e c)
      end
  end.
Proof.
  unfold Earlier.checkHref, bind, await, construct.
  destruct (newURLWithBase href page) as [resolved|]; [|reflexivity].
  rewrite checkCanonicalStatus_run. cbv zeta.
  destruct (newURL page) as [pu|]; [|reflexivity].
  destruct (newURL (toString resolved)) as [pc|]; reflexivity.
Qed.

Lemma Earlier_runCanonicalChecks_run (page : string) (e : Effects) :
  Earlier.runCanonicalChecks page e =
  match fetch (requests e) page with
  | Throw m => (Ret (fetchError page m), requested e page)
  | Ret response =>
      match resp_text response with
      | Throw m => (Ret (fetchError page m), requested e page)
      | Ret html =>
          match Earlier.checkLinks page (canonicalLinks html) (requested e page) with
          | (Ret v, e') => (Ret (verdictRow page v), e')
          | (Throw m, e') => (Ret (fetchError page m), e')
          end
      end
  end.
Proof.
  unfold Earlier.runCanonicalChecks, tryCatch, bind, doFetch, await, ret.
  fold (requested e page).
  destruct (fetch (requests e) page) as [response|m]; [|reflexivity].
  destruct (resp_text response) as [html|m]; [|reflexivity].
  destruct (Earlier.checkLinks page (canonicalLinks html) (requested e page))
    as [[v|m] e']; reflexivity.
Qed.

End EvaluatorMore.

(** X4. [OK] is reported only when every check has passed: the page and its
    body were read, the document has exactly one canonical link, in the
    head, with a non-empty [href] that resolves; the target answered 200; it
    has the host and the protocol of the page, starts with [http://] or
    [https://] and is lowercase. The row then reads "No errors" and two
    requests were sent. *)
Theorem OK_means_every_check_passed {api : URLApi} {world : World}
    (page : string) (e e' : Effects) (r : PageCheckResult) :
  runCanonicalChecks page e = (Ret r, e') ->
  status r = OK ->
  exists response html link href resolved answer pageUrl target,
    fetch (requests e) page = Ret response
    /\ resp_text response = Ret html
    /\ canonicalLinks html = [link]
    /\ getAttribute_href link = Some href /\ href <> ""
    /\ closest_head link = true
    /\ newURLWithBase href page = Some resolved
    /\ fetch (requests (requested e page)) (toString resolved) = Ret answer
    /\ resp_status answer = 200%N
    /\ newURL page = Some pageUrl
    /\ newURL (toString resolved) = Some target
    /\ hostname pageUrl = hostname target
    /\ protocol pageUrl = protocol target
    /\ (JS.startsWith (toString resolved) "http://" = true
        \/ JS.startsWith (toString resolved) "https://" = true)
    /\ toString resolved = JS.toLowerCase (toString resolved)
    /\ r = mkResult page OK "No errors"
    /\ e' = requested (requested e page) (toString resolved).
Proof.
  intros Hrun Hok. rewrite runCanonicalChecks_run in Hrun.
  destruct (fetch (requests e) page) as [response|m] eqn:Hf.
  2: { apply Ret_pair_inj in Hrun. subst r. discriminate. }
  destruct (resp_text response) as [html|m] eqn:Ht.
  2: { apply Ret_pair_inj in Hrun. subst r. discriminate. }
  rewrite checkLinks_run in Hrun.
  destruct (canonicalLinks html) as [|link rest] eqn:Hl.
  { apply Ret_pair_inj in Hrun. subst r. discriminate. }
  cbv zeta in Hrun.
  destruct (getAttribute_href link) as [[|c h]|] eqn:Hh.
  1, 3: apply Ret_pair_inj in Hrun; subst r; discriminate.
  rewrite checkHref_run in Hrun.
  destruct (newURLWithBase (String c h) page) as [resolved|] eqn:Hr.
  2: { apply Ret_pair_inj in Hrun. subst r. discriminate. }
  cbv zeta in Hrun.
  destruct (newURL page) as [pu|] eqn:Hp.
  2: { apply Ret_pair_inj in Hrun. subst r. discriminate. }
  destruct (newURL (toString resolved)) as [pc|] eqn:Hq.
  2: { apply Ret_pair_inj in Hrun. subst r. discriminate. }
  injection Hrun as Hrow He'. subst r e'. unfold verdictRow in Hok. simpl in Hok.
  apply afterComparisons_OK_inv in Hok as (Hhost & Hproto & Habs & Hlow & Hok & E3).
  apply afterStatus_OK_inv in Hok as (answer & Hc & H200 & Hok & E2).
  apply check_OK_inv in Hok as (Hhead & Hok & E1).
  apply check_OK_inv in Hok as (Hone & _ & E0).
  apply negb_false_iff in Hhead.
  assert (rest = []) as ->.
  { destruct rest; [reflexivity | discriminate]. }
  exists response, html, link, (String c h), resolved, answer, pu, pc.
  repeat split; try assumption; try discriminate.
  rewrite E3, E2, E1, E0. reflexivity.
Qed.

Lemma OK_means_every_check_passed_witness :
  exists link resolved answer,
    @canonicalLinks (Site.world []) "to-b" = [link]
    /\ closest_head link = true
    /\ newURLWithBase "https://example.com/b" "https://example.com/a" = Some resolved
    /\ toString resolved = "https://example.com/b"
    /\ @fetch (Site.world []) ["https://example.com/a"] "https://example.com/b"
       = Ret answer
    /\ resp_status answer = 200%N.
Proof.
  destruct (@OK_means_every_check_passed Whatwg.api (Site.world [])
              "https://example.com/a" noEffects
              (mkEffects ["https://example.com/a"; "https://example.com/b"] [])
              (mkResult "https://example.com/a" OK "No errors") eq_refl eq_refl)
    as (response & html & link & href & resolved & answer & pu & pc
        & Hf & Ht & Hl & Hh & _ & Hhead & Hr & Hc & H200 & _ & _ & _ & _ & _ & _ & _ & He).
  injection Hf as <-. injection Ht as <-.
  assert (Hto : toString resolved = "https://example.com/b").
  { unfold requested, noEffects in He. cbn [requests files List.app] in He.
    injection He as He. now symmetry. }
  assert (Hhref : href = "https://example.com/b").
  { change (@canonicalLinks (Site.world []) "to-b")
      with [mkElement (Some "https://example.com/b") true] in Hl.
    injection Hl as <-. simpl in Hh. now injection Hh as <-. }
  subst href. rewrite Hto in Hc.
  exists link, resolved, answer. repeat split; assumption.
Defined.

(** X5. In the earlier version [OK] is reported only for a page that names
    itself: one canonical link, in the head, whose resolved URL is the page
    URL character for character, answered with 200; the page URL is then
    lowercase too. *)
Theorem Earlier_OK_means_self_reference {api : URLApi} {world : World}
    (page : string) (e e' : Effects) (r : PageCheckResult) :
  Earlier.runCanonicalChecks page e = (Ret r, e') ->
  status r = OK ->
  exists response html link href resolved answer,
    fetch (requests e) page = Ret response
    /\ resp_text response = Ret html
    /\ canonicalLinks html = [link]
    /\ getAttribute_href link = Some href /\ href <> ""
    /\ closest_head link = true
    /\ newURLWithBase href page = Some resolved
    /\ toString resolved = page
    /\ fetch (requests (requested e page)) page = Ret answer
    /\ resp_status answer = 200%N
    /\ page = JS.toLowerCase page
    /\ r = mkResult page OK "No errors"
    /\ e' = requested (requested e page) page.
Proof.
  intros Hrun Hok. rewrite Earlier_runCanonicalChecks_run in Hrun.
  destruct (fetch (requests e) page) as [response|m] eqn:Hf.
  2: { apply Ret_pair_inj in Hrun. subst r. discriminate. }
  destruct (resp_text response) as [html|m] eqn:Ht.
  2: { apply Ret_pair_inj in Hrun. subst r. discriminate. }
  unfold Earlier.checkLinks in Hrun.
  destruct (canonicalLinks html) as [|link rest] eqn:Hl.
  { apply Ret_pair_inj in Hrun. subst r. discriminate. }
  cbv zeta in Hrun.
  destruct (getAttribute_href link) as [[|c h]|] eqn:Hh.
  1, 3: apply Ret_pair_inj in Hrun; subst r; discriminate.
  rewrite Earlier_checkHref_run in Hrun.
  destruct (newURLWithBase (String c h) page) as [resolved|] eqn:Hr.
  2: { apply Ret_pair_inj in Hrun. subst r. discriminate. }
  cbv zeta in Hrun.
  destruct (newURL page) as [pu|] eqn:Hp.
  2: { apply Ret_pair_inj in Hrun. subst r. discriminate. }
  destruct (newURL (toString resolved)) as [pc|] eqn:Hq.
  2: { apply Ret_pair_inj in Hrun. subst r. discriminate. }
  injection Hrun as Hrow He'. subst r e'. unfold verdictRow in Hok. simpl in Hok.
  apply check_OK_inv in Hok as (Hlow & Hok & E7).
  apply check_OK_inv in Hok as (_ & Hok & E6).
  apply check_OK_inv in Hok as (_ & Hok & E5).
  apply check_OK_inv in Hok as (_ & Hok & E4).
  apply check_OK_inv in Hok as (Hself & Hok & E3).
  apply afterStatus_OK_inv in Hok as (answer & Hc & H200 & Hok & E2).
  apply check_OK_inv in Hok as (Hhead & Hok & E1).
  apply check_OK_inv in Hok as (Hone & _ & E0).
  apply negb_false_iff in Hhead, Hself, Hlow.
  apply String.eqb_eq in Hself, Hlow.
  assert (rest = []) as ->.
  { destruct rest; [reflexivity | discriminate]. }
  exists response, html, link, (String c h), resolved, answer.
  rewrite Hself in *.
  repeat split; try assumption; try discriminate.
  rewrite E7, E6, E5, E4, E3, E2, E1, E0. reflexivity.
Qed.

Lemma Earlier_OK_means_self_reference_witness :
  exists link resolved,
    @canonicalLinks (Site.world []) "self" = [link]
    /\ newURLWithBase "https://example.com/" "https://example.com/" = Some resolved
    /\ toString resolved = "https://example.com/".
Proof.
  destruct (@Earlier_OK_means_self_reference Whatwg.api (Site.world [])
              "https://example.com/" noEffects
              (mkEffects ["https://example.com/"; "https://example.com/"] [])
              (mkResult "https://example.com/" OK "No errors") eq_refl eq_refl)
    as (response & html & link & href & resolved & answer
        & Hf & Ht & Hl & Hh & _ & _ & Hr & Hself & _).
  injection Hf as <-. injection Ht as <-.
  assert (Hhref : href = "https://example.com/").
  { change (@canonicalLinks (Site.world []) "self")
      with [mkElement (Some "https://example.com/") true] in Hl.
    injection Hl as <-. simpl in Hh. now injection Hh as <-. }
  subst href. exists link, resolved. repeat split; assumption.
Defined.

(** X6. The check of one page writes no file and sends one request, for the
    page, or two, the second one for the canonical target: never more. *)
Theorem one_or_two_requests_per_page {api : URLApi} {world : World}
    (page : string) (e : Effects) :
  files (snd (runCanonicalChecks page e)) = files e
  /\ (requests (snd (runCanonicalChecks page e)) = (requests e ++ [page])%list
      \/ exists canonicalUrl,
          requests (snd (runCanonicalChecks page e))
          = (requests e ++ [page; canonicalUrl])%list).
Proof.
  split; [apply runCanonicalChecks_files|].
  rewrite runCanonicalChecks_run.
  destruct (fetch (requests e) page) as [response|m]; [|now left].
  destruct (resp_text response) as [html|m]; [|now left].
  rewrite checkLinks_run.
  destruct (canonicalLinks html) as [|link rest]; [now left|]. cbv zeta.
  destruct (getAttribute_href link) as [[|c h]|]; try now left.
  rewrite checkHref_run.
  destruct (newURLWithBase (String c h) page) as [resolved|]; [|now left].
  cbv zeta. right. exists (toString resolved).
  destruct (newURL page); [destruct (newURL (toString resolved))|];
    simpl; now rewrite <- app_assoc.
Qed.



(** X8. A first canonical link without an [href], or with an empty one, ends
    the checks: the row is [FAIL] with the empty-tag reason (after the reason
    for multiple links, if there are several), and no request is sent for a
    target. *)
Theorem empty_href_ends_the_checks {api : URLApi} {world : World}
    (page : string) (e : Effects) (response : Response) (html : string)
    (link : Element) (rest : list Element) :
  fetch (requests e) page = Ret response ->
  resp_text response = Ret html ->
  canonicalLinks html = link :: rest ->
  getAttribute_href link = None \/ getAttribute_href link = Some "" ->
  runCanonicalChecks page e
  = (Ret (mkResult page FAIL
            (match rest with
             | [] => "Canonical tag is empty."
             | _ :: _ => "Multiple canonical tags detected. Canonical tag is empty."
             end)),
     requested e page).
Proof.
  intros Hf Ht Hl Hh.
  rewrite runCanonicalChecks_run, Hf, Ht, Hl, checkLinks_run. cbv zeta.
  destruct Hh as [-> | ->]; destruct rest; reflexivity.
Qed.

Lemma empty_href_ends_the_checks_witness :
  @runCanonicalChecks Whatwg.api (Blog.world []) "https://blog.example.com/bare"
    noEffects
  = (Ret (mkResult "https://blog.example.com/bare" FAIL
            "Multiple canonical tags detected. Canonical tag is empty."),
     mkEffects ["https://blog.example.com/bare"] []).
Proof.
  apply (@empty_href_ends_the_checks Whatwg.api (Blog.world [])
           "https://blog.example.com/bare" noEffects (Site.page "bare") "bare"
           (mkElement None false)
           [mkElement (Some "https://blog.example.com/first") true]);
    try reflexivity.
  now left.
Defined.

(** ** The reports and the audit loop, further *)

Section OrchestratorMore.
Context {api : URLApi} {world : World}.

Lemma counts_add_up (results : list PageCheckResult) :
  countOK results + countFail results = List.length results.
Proof.
  unfold countOK, countFail. induction results as [|r rs IH]; [reflexivity|].
  simpl. destruct (status r); simpl; lia.
Qed.

(** The three ways [saveResultsToCSV] can go. *)
Lemma saveResultsToCSV_run (results : list PageCheckResult)
    (domain sitemapName : string) (e : Effects) :
  exists content,
    JS.startsWith content "URL,Status,Explanation" = true
    /\ saveResultsToCSV results domain sitemapName e
       = match mkdirSync ("results/" ++ domain) with
         | Throw m => (Throw m, e)
         | Ret _ =>
             match writeFileSync (files e)
                     ("results/" ++ domain ++ "/" ++ sitemapName ++ "_"
                      ++ getTimestamp (List.length (files e)) ++ ".csv") content
             with
             | Throw m => (Throw m, e)
             | Ret _ =>
                 (Ret (mkTotals (countOK results) (countFail results)
                         (List.length results)),
                  mkEffects (requests e)
                    (List.app (files e)
                       [("results/" ++ domain ++ "/" ++ sitemapName ++ "_"
                         ++ getTimestamp (List.length (files e)) ++ ".csv",
                         content)]))
             end
         end.
Proof.
  unfold saveResultsToCSV, bind, makeDir, await, readClock, writeFile, ret.
  cbv zeta beta.
  exists (String.concat JS.newline
            (List.app ("URL,Status,Explanation" :: map csvRow results)
               [JS.newline ++ "Total URLs Checked: " ++ showNat (List.length results);
                "Total OK: " ++ showNat (countOK results);
                "Total FAIL (Canonical Issues): " ++ showNat (countFail results)])).
  split.
  - unfold JS.startsWith. cbn [List.app String.concat map].
    destruct (map csvRow results ++ _)%list; [reflexivity | apply prefix_append].
  - destruct (mkdirSync ("results/" ++ domain)); [|reflexivity].
    cbv iota beta. destruct (writeFileSync _ _ _); reflexivity.
Qed.

(** The grand totals stay balanced through the loop. *)
Lemma auditSitemaps_balanced (sitemaps : list string) (grand after : Totals)
    (e e1 : Effects) :
  totalOK grand + totalFail grand = totalChecked grand ->
  auditSitemaps sitemaps grand e = (Ret after, e1) ->
  totalOK after + totalFail after = totalChecked after.
Proof.
  revert grand e; induction sitemaps as [|s rest IH]; intros grand e Hbal.
  - simpl. unfold ret. intros H; injection H as <- _. exact Hbal.
  - cbn [auditSitemaps]. unfold bind.
    destruct (getDomainName s e) as [[domain|m] e0]; [|discriminate].
    destruct (fetchSitemapUrls s e0) as [[urls|m] e2]; [|discriminate].
    destruct (checkAll urls e2) as [[results|m] e3]; [|discriminate].
    destruct (saveResultsToCSV_run results domain (getSitemapName s) e3)
      as (content & _ & ->).
    destruct (mkdirSync ("results/" ++ domain)); [|discriminate].
    destruct (writeFileSync _ _ _); [|discriminate].
    apply IH. simpl. pose proof (counts_add_up results). lia.
Qed.

End OrchestratorMore.



(** X10. A run that ends normally has written exactly one report per
    configured sitemap, and its grand totals add up. *)
Theorem runAudit_one_report_per_sitemap {api : URLApi} {world : World}
    (e e' : Effects) (t : Totals) :
  runAudit e = (Ret t, e') ->
  exists config,
    loadConfig = Ret config
    /\ List.length (files e')
       = List.length (files e) + List.length (sitemapUrls config)
    /\ totalOK t + totalFail t = totalChecked t.
Proof.
  unfold runAudit, bind, await.
  destruct loadConfig as [config|m]; [|discriminate].
  intros H. exists config. split; [reflexivity|]. split.
  - eapply auditSitemaps_files; eassumption.
  - eapply auditSitemaps_balanced; [|eassumption]. reflexivity.
Qed.

Lemma runAudit_one_report_per_sitemap_witness :
  exists config,
    @loadConfig (Site.world ["https://example.com/sitemap.xml";
                             "https://example.com/news.xml"]) = Ret config
    /\ List.length (files (snd (@runAudit Whatwg.api
                                  (Site.world ["https://example.com/sitemap.xml";
                                               "https://example.com/news.xml"])
                                  noEffects)))
       = 0 + List.length (sitemapUrls config)
    /\ 2 + 1 = 3.
Proof.
  apply (@runAudit_one_report_per_sitemap Whatwg.api
           (Site.world ["https://example.com/sitemap.xml";
                        "https://example.com/news.xml"])
           noEffects
           (snd (@runAudit Whatwg.api
                   (Site.world ["https://example.com/sitemap.xml";
                                "https://example.com/news.xml"]) noEffects))
           (mkTotals 2 1 3)).
  vm_compute. reflexivity.
Defined.

(** X11. A configured sitemap URL that [new URL] rejects ends the run with
    that error before anything is requested for it; the sitemaps before it
    keep their reports, no later one is processed. *)
Theorem unparseable_sitemap_url_ends_run {api : URLApi} {world : World}
    (config : Config) (done rest : list string) (bad : string)
    (after : Totals) (e e1 : Effects) :
  loadConfig = Ret config ->
  sitemapUrls config = (done ++ bad :: rest)%list ->
  auditSitemaps done (mkTotals 0 0 0) e = (Ret after, e1) ->
  newURL bad = None ->
  runAudit e = (Throw invalidUrl, e1).
Proof.
  intros Hcfg Hurls Hdone Hbad.
  unfold runAudit, bind, await. rewrite Hcfg, Hurls, auditSitemaps_app, Hdone.
  cbn [auditSitemaps]. unfold bind at 1. unfold getDomainName, bind, await.
  now rewrite Hbad.
Qed.

Lemma unparseable_sitemap_url_ends_run_witness :
  @runAudit Whatwg.api
    (Site.world ["https://example.com/news.xml"; "sitemap.xml";
                 "https://example.com/sitemap.xml"]) noEffects
  = (Throw invalidUrl,
     snd (@auditSitemaps Whatwg.api
            (Site.world ["https://example.com/news.xml"; "sitemap.xml";
                         "https://example.com/sitemap.xml"])
            ["https://example.com/news.xml"] (mkTotals 0 0 0) noEffects)).
Proof.
  apply (@unparseable_sitemap_url_ends_run Whatwg.api
           (Site.world ["https://example.com/news.xml"; "sitemap.xml";
                        "https://example.com/sitemap.xml"])
           (mkConfig ["https://example.com/news.xml"; "sitemap.xml";
                      "https://example.com/sitemap.xml"])
           ["https://example.com/news.xml"] ["https://example.com/sitemap.xml"]
           "sitemap.xml" (mkTotals 1 0 1) noEffects).
  - reflexivity.
  - reflexivity.
  - vm_compute; reflexivity.
  - reflexivity.
Defined.

(** X12. Loading a sitemap always sends exactly one request. It throws
    exactly when the request is rejected, the body cannot be read or the
    document does not parse, with the message of that error; otherwise it
    returns the URLs of the document. *)
Theorem fetchSitemapUrls_outcome {api : URLApi} {world : World}
    (sitemapUrl : string) (e : Effects) :
  snd (fetchSitemapUrls sitemapUrl e) = requested e sitemapUrl
  /\ (forall m, fst (fetchSitemapUrls sitemapUrl e) = Throw m
                <-> LoadFails sitemapUrl e m)
  /\ (forall urls,
         fst (fetchSitemapUrls sitemapUrl e) = Ret urls
         <-> exists response xml,
               fetch (requests e) sitemapUrl = Ret response
               /\ resp_text response = Ret xml
               /\ sitemapLocs xml = Ret urls).
Proof.
  unfold fetchSitemapUrls, bind, doFetch, await, ret. fold (requested e sitemapUrl).
  destruct (fetch (requests e) sitemapUrl) as [response|m0] eqn:Hf.
  2: { split; [reflexivity|]. split.
       - intros m; split.
         + intros H; injection H as <-. now apply network_error.
         + intros [H | r H _ | r x H _ _]; simpl; congruence.
       - intros urls; split; [discriminate|].
         intros (r & x & H & _). congruence. }
  destruct (resp_text response) as [xml|m0] eqn:Ht.
  2: { split; [reflexivity|]. split.
       - intros m; split.
         + intros H; injection H as <-. now apply (body_error _ _ _ response).
         + intros [H | r H Hr | r x H Hr _]; simpl; congruence.
       - intros urls; split; [discriminate|].
         intros (r & x & H & Hr & _). congruence. }
  destruct (sitemapLocs xml) as [urls0|m0] eqn:Hx.
  - split; [reflexivity|]. split.
    + intros m; split; [discriminate|].
      intros [H | r H Hr | r x H Hr Hxx]; congruence.
    + intros urls; split.
      * intros H; injection H as <-. now exists response, xml.
      * intros (r & x & H & Hr & Hxx). simpl. congruence.
  - split; [reflexivity|]. split.
    + intros m; split.
      * intros H; injection H as <-. now apply (parse_error _ _ _ response xml).
      * intros [H | r H Hr | r x H Hr Hxx]; simpl; congruence.
    + intros urls; split; [discriminate|].
      intros (r & x & H & Hr & Hxx). congruence.
Qed.

(** ** The name of a report *)

Lemma hasChar_dashes (s : string) : JS.hasChar "/" (dashes s) = false.
Proof.
  induction s as [|c r IH]; [reflexivity|].
  cbn [dashes JS.hasChar]. rewrite IH, orb_false_r.
  destruct (Ascii.eqb c "/") eqn:E; [reflexivity|].
  now rewrite Ascii.eqb_sym, E.
Qed.

Lemma dashes_append (a b : string) : dashes (a ++ b) = dashes a ++ dashes b.
Proof. induction a as [|c a IH]; simpl; [reflexivity | now rewrite IH]. Qed.

Lemma take_append (a b : string) : take (String.length a) (a ++ b) = a.
Proof. induction a as [|c a IH]; simpl; [now destruct b | now rewrite IH]. Qed.

Lemma drop_length_plus (a b : string) (n : nat) :
  JS.drop (String.length a + n) (a ++ b) = JS.drop n b.
Proof. induction a as [|c a IH]; simpl; [reflexivity | exact IH]. Qed.

Lemma takeWhile_until_slash (a r : string) :
  JS.hasChar "/" a = false ->
  Whatwg.takeWhile (Whatwg.notIn "/") (a ++ String "/" r) = a.
Proof.
  induction a as [|c a IH]; intros H.
  - cbn [String.append Whatwg.takeWhile]. reflexivity.
  - cbn [JS.hasChar] in H. apply orb_false_iff in H as [Hc Ha].
    cbn [String.append Whatwg.takeWhile]. unfold Whatwg.notIn at 1.
    cbn [JS.hasChar]. rewrite Ascii.eqb_sym, Hc. cbn [orb negb].
    now rewrite IH.
Qed.

Lemma endsWith_append (a p : string) : JS.endsWith (a ++ p) p = true.
Proof.
  unfold JS.endsWith. rewrite length_append.
  replace (String.length a + String.length p - String.length p)
    with (String.length a) by lia.
  rewrite drop_append, String.eqb_refl.
  apply andb_true_iff; split; [apply Nat.leb_le; lia | reflexivity].
Qed.

(** The name of a sitemap whose URL is [scheme://host/rest]: the origin is
    cut off, then a final [.xml], and slashes become dashes. *)
Lemma getSitemapName_after_origin (sch host rest : string) :
  sch = "https" \/ sch = "http" ->
  host <> "" -> JS.hasChar "/" host = false ->
  getSitemapName (sch ++ "://" ++ host ++ "/" ++ rest)
  = dashes (if JS.endsWith rest ".xml"
            then take (String.length rest - 4) rest else rest).
Proof.
  intros Hsch Hhost Hslash. unfold getSitemapName.
  assert (Hprefix : originPrefix (sch ++ "://" ++ host ++ "/" ++ rest)
                    = Some (String.length sch + 3 + String.length host + 1)).
  { unfold originPrefix. destruct Hsch as [-> | ->].
    - change ("https" ++ "://" ++ host ++ "/" ++ rest)
        with ("https://" ++ (host ++ String "/" rest)).
      unfold JS.startsWith. rewrite prefix_append. cbv zeta.
      change (JS.drop 8 ("https://" ++ (host ++ String "/" rest)))
        with (host ++ String "/" rest).
      rewrite (takeWhile_until_slash host rest Hslash).
      destruct host as [|a h]; [congruence|].
      now rewrite drop_append.
    - change ("http" ++ "://" ++ host ++ "/" ++ rest)
        with ("http://" ++ (host ++ String "/" rest)).
      unfold JS.startsWith.
      change (String.prefix "https://" ("http://" ++ (host ++ String "/" rest)))
        with false.
      rewrite prefix_append. cbv zeta.
      change (JS.drop 7 ("http://" ++ (host ++ String "/" rest)))
        with (host ++ String "/" rest).
      rewrite (takeWhile_until_slash host rest Hslash).
      destruct host as [|a h]; [congruence|].
      now rewrite drop_append. }
  rewrite Hprefix.
  assert (Hdrop : JS.drop (String.length sch + 3 + String.length host + 1)
                    (sch ++ "://" ++ host ++ "/" ++ rest) = rest).
  { replace (String.length sch + 3 + String.length host + 1)
      with (String.length (sch ++ "://" ++ host ++ "/") + 0)
      by (rewrite !length_append; simpl; lia).
    replace (sch ++ "://" ++ host ++ "/" ++ rest)
      with ((sch ++ "://" ++ host ++ "/") ++ rest)
      by (now rewrite !append_assoc).
    apply drop_length_plus. }
  now rewrite Hdrop.
Qed.

Lemma getSitemapName_xml (sch host path : string) :
  sch = "https" \/ sch = "http" ->
  host <> "" -> JS.hasChar "/" host = false ->
  getSitemapName (sch ++ "://" ++ host ++ "/" ++ path ++ ".xml") = dashes path.
Proof.
  intros Hsch Hhost Hslash.
  rewrite (getSitemapName_after_origin sch host (path ++ ".xml") Hsch Hhost Hslash).
  rewrite endsWith_append.
  replace (String.length (path ++ ".xml") - 4) with (String.length path)
    by (rewrite length_append; simpl; lia).
  now rewrite take_append.
Qed.

(** X13. A sitemap name holds no slash, whatever the URL: the report file
    always lies directly in the directory of its domain. *)
Theorem getSitemapName_has_no_slash (sitemapUrl : string) :
  JS.hasChar "/" (getSitemapName sitemapUrl) = false.
Proof. unfold getSitemapName. apply hasChar_dashes. Qed.

(** X14. For a sitemap at [http(s)://host/path.xml] the name is the path
    without [.xml], its slashes turned into dashes. *)
Theorem getSitemapName_of_xml_sitemap (sch host path : string) :
  sch = "https" \/ sch = "http" ->
  host <> "" -> JS.hasChar "/" host = false ->
  getSitemapName (sch ++ "://" ++ host ++ "/" ++ path ++ ".xml") = dashes path
  /\ JS.hasChar "/" (dashes path) = false
  /\ String.length (dashes path) = String.length path.
Proof.
  intros Hsch Hhost Hslash. split; [now apply getSitemapName_xml|].
  split; [apply hasChar_dashes|].
  induction path as [|c r IH]; simpl; [reflexivity | now rewrite IH].
Qed.

Lemma getSitemapName_of_xml_sitemap_witness :
  getSitemapName "https://www.example.com/sitemaps/en/pages.xml" = "sitemaps-en-pages".
Proof.
  apply (getSitemapName_of_xml_sitemap "https" "www.example.com" "sitemaps/en/pages");
    [now left | discriminate | reflexivity].
Defined.

(** X15. Two sitemaps of one site whose paths differ only by a slash in the
    place of a dash get the same name, hence the same report file when they
    are written within the same second. *)
Theorem sitemap_names_collide (sch host a b : string) :
  sch = "https" \/ sch = "http" ->
  host <> "" -> JS.hasChar "/" host = false ->
  getSitemapName (sch ++ "://" ++ host ++ "/" ++ (a ++ "/" ++ b) ++ ".xml")
  = getSitemapName (sch ++ "://" ++ host ++ "/" ++ (a ++ "-" ++ b) ++ ".xml").
Proof.
  intros Hsch Hhost Hslash.
  rewrite !(getSitemapName_xml _ _ _ Hsch Hhost Hslash).
  rewrite !dashes_append. reflexivity.
Qed.

Lemma sitemap_names_collide_witness :
  getSitemapName "https://example.com/news/2025.xml"
  = getSitemapName "https://example.com/news-2025.xml".
Proof.
  apply (sitemap_names_collide "https" "example.com" "news" "2025");
    [now left | discriminate | reflexivity].
Defined.

(** ** The time stamp *)

Lemma removeChars_append (chars a b : string) :
  removeChars chars (a ++ b) = removeChars chars a ++ removeChars chars b.
Proof.
  induction a as [|c a IH]; simpl; [reflexivity|].
  destruct (JS.hasChar c chars); simpl; now rewrite IH.
Qed.

Lemma removeChars_dateField (s : string) :
  dateField s -> removeChars "-T:" s = s /\ JS.hasChar "." s = false.
Proof.
  intros (Hd & Ht & Hc & Hp). split; [|exact Hp]. clear Hp.
  induction s as [|c r IH]; [reflexivity|].
  cbn [JS.hasChar] in Hd, Ht, Hc.
  apply orb_false_iff in Hd as [Hd Hd'], Ht as [Ht Ht'], Hc as [Hc Hc'].
  cbn [removeChars JS.hasChar].
  rewrite (Ascii.eqb_sym c "-"), Hd, (Ascii.eqb_sym c "T"), Ht,
    (Ascii.eqb_sym c ":"), Hc. cbn [orb]. now rewrite IH.
Qed.

Lemma hasChar_append (c : ascii) (a b : string) :
  JS.hasChar c (a ++ b) = JS.hasChar c a || JS.hasChar c b.
Proof.
  induction a as [|d a IH]; simpl; [reflexivity|].
  now rewrite IH, orb_assoc.
Qed.

Lemma splitHead_append (a b : string) (sep : ascii) :
  JS.hasChar sep a = false -> JS.splitHead (a ++ String sep b) sep = a.
Proof.
  induction a as [|c a IH]; intros H.
  - cbn [String.append JS.splitHead]. now rewrite Ascii.eqb_refl.
  - cbn [JS.hasChar] in H. apply orb_false_iff in H as [Hc Ha].
    cbn [String.append JS.splitHead].
    rewrite Ascii.eqb_sym, Hc. now rewrite IH.
Qed.

(** X16. On the text of [toISOString()] the time stamp is the six fields of
    date and time, one after the other with nothing between them (no
    underscore between date and time); the milliseconds and the [Z] are
    dropped. *)
Theorem timestamp_is_the_six_fields
    (year month day hours minutes seconds millis : string) :
  dateField year -> dateField month -> dateField day ->
  dateField hours -> dateField minutes -> dateField seconds ->
  timestampOfISO (isoString year month day hours minutes seconds millis)
  = year ++ month ++ day ++ hours ++ minutes ++ seconds.
Proof.
  intros HY HM HD Hh Hm Hs.
  apply removeChars_dateField in HY as [RY PY], HM as [RM PM], HD as [RD PD],
    Hh as [Rh Ph], Hm as [Rm Pm], Hs as [Rs Ps].
  assert (Hsep : forall f c tail,
             removeChars "-T:" f = f -> JS.hasChar c "-T:" = true ->
             removeChars "-T:" (f ++ String c tail) = f ++ removeChars "-T:" tail).
  { intros f c tail Hf Hc. rewrite removeChars_append, Hf.
    cbn [removeChars]. now rewrite Hc. }
  unfold timestampOfISO, isoString.
  change (year ++ "-" ++ month ++ "-" ++ day ++ "T" ++ hours ++ ":" ++ minutes
          ++ ":" ++ seconds ++ "." ++ millis ++ "Z")
    with (year ++ String "-" (month ++ String "-" (day ++ String "T"
            (hours ++ String ":" (minutes ++ String ":"
               (seconds ++ String "." (millis ++ "Z"))))))).
  rewrite (Hsep year), (Hsep month), (Hsep day), (Hsep hours), (Hsep minutes)
    by (assumption || reflexivity).
  rewrite removeChars_append, Rs. cbn [removeChars JS.hasChar].
  change (Ascii.eqb "." "-" || (Ascii.eqb "." "T" || (Ascii.eqb "." ":" || false)))
    with false. cbv iota.
  replace (year ++ month ++ day ++ hours ++ minutes ++ seconds
           ++ String "." (removeChars "-T:" (millis ++ "Z")))
    with ((year ++ month ++ day ++ hours ++ minutes ++ seconds)
          ++ String "." (removeChars "-T:" (millis ++ "Z")))
    by now rewrite !append_assoc.
  apply splitHead_append.
  rewrite !hasChar_append, PY, PM, PD, Ph, Pm, Ps. reflexivity.
Qed.

Lemma timestamp_is_the_six_fields_witness :
  timestampOfISO "2025-03-12T21:03:07.123Z" = "20250312210307".
Proof.
  apply (timestamp_is_the_six_fields "2025" "03" "12" "21" "03" "07" "123");
    repeat split; reflexivity.
Defined.

(** ** The earlier evaluator, further *)

(** X17. The earlier version keeps the same discipline as the current one:
    its check never throws, returns one row for the page, and the row reads
    "No errors" exactly when its status is [OK]. *)
Theorem Earlier_explanation_empty_iff_OK {api : URLApi} {world : World}
    (page : string) (e : Effects) :
  exists r e',
    Earlier.runCanonicalChecks page e = (Ret r, e')
    /\ url r = page
    /\ (explanation r = "No errors" <-> status r = OK).
Proof.
  rewrite Earlier_runCanonicalChecks_run.
  assert (Herr : forall m, explanation (fetchError page m) = "No errors"
                           <-> status (fetchError page m) = OK).
  { intros m; simpl; split; discriminate. }
  destruct (fetch (requests e) page) as [response|m]; [|eauto].
  destruct (resp_text response) as [html|m]; [|eauto].
  destruct (Earlier.checkLinks page (canonicalLinks html) (requested e page))
    as [[v|m] e'] eqn:Hlinks; [|eauto].
  exists (verdictRow page v), e'. split; [reflexivity|]. split; [reflexivity|].
  apply verdictRow_iff.
  unfold Earlier.checkLinks in Hlinks.
  destruct (canonicalLinks html) as [|link rest].
  { apply Ret_pair_inj in Hlinks. subst v. reflexivity. }
  cbv zeta in Hlinks.
  assert (Hv : coherent (check (1 <? List.length (link :: rest))
                           "Multiple canonical tags detected. " (mkVerdict OK ""))).
  { apply check_coherent; reflexivity. }
  destruct (getAttribute_href link) as [[|c h]|].
  1, 3: apply Ret_pair_inj in Hlinks; subst v;
        apply check_coherent; [reflexivity | exact Hv].
  rewrite Earlier_checkHref_run in Hlinks.
  destruct (newURLWithBase (String c h) page) as [resolved|]; [|discriminate].
  cbv zeta in Hlinks.
  destruct (newURL page) as [pu|]; [|discriminate].
  destruct (newURL (toString resolved)) as [pc|]; [|discriminate].
  apply Ret_pair_inj in Hlinks. subst v.
  do 5 (apply check_coherent; [reflexivity|]).
  apply afterStatus_coherent, check_coherent; [reflexivity | exact Hv].
Qed.

(** ** The normal form, step by step *)

Section NormalFormFacts.
Context {api : URLApi}.

Lemma take_drop (n : nat) (s : string) : s = take n s ++ JS.drop n s.
Proof.
  revert s; induction n as [|n IH]; intros [|c r]; simpl; try reflexivity.
  now rewrite <- IH.
Qed.

Lemma endsWith_slash (s : string) :
  JS.endsWith s "/" = true <-> exists a, s = a ++ "/".
Proof.
  split.
  - unfold JS.endsWith. intros H. apply andb_true_iff in H as [_ H].
    apply String.eqb_eq in H.
    exists (take (String.length s - String.length "/") s).
    pose proof (take_drop (String.length s - String.length "/") s) as Hd.
    now rewrite H in Hd.
  - intros [a ->]. apply endsWith_append.
Qed.

Lemma sliceInit_append (a : string) (c : ascii) :
  JS.sliceInit (a ++ String c "") = a.
Proof.
  induction a as [|d a IH]; [reflexivity|].
  change (JS.sliceInit (String d (a ++ String c "")) = String d a).
  cbn [JS.sliceInit]. rewrite IH. now destruct a.
Qed.

Lemma SlashStripped_iff (p : URL) (s out : string) :
  SlashStripped p s out
  <-> out = (if JS.endsWith s "/" && negb (pathname p =? "/")%string
             then JS.sliceInit s else s).
Proof.
  split.
  - intros [o Hs Hp | [Hp | Hs]].
    + subst s. rewrite endsWith_append.
      apply String.eqb_neq in Hp. rewrite Hp. simpl.
      symmetry. apply sliceInit_append.
    + rewrite Hp, String.eqb_refl. now rewrite andb_false_r.
    + destruct (JS.endsWith s "/") eqn:E; [|reflexivity].
      apply endsWith_slash in E as [a E]. now elim (Hs a).
  - intros ->. destruct (JS.endsWith s "/") eqn:E.
    + destruct (pathname p =? "/")%string eqn:Hp; simpl.
      * apply slash_kept. left. now apply String.eqb_eq.
      * apply endsWith_slash in E as [a ->]. rewrite sliceInit_append.
        apply slash_stripped; [reflexivity | now apply String.eqb_neq].
    + simpl. apply slash_kept. right. intros a Ha.
      assert (JS.endsWith s "/" = true) by (apply endsWith_slash; now exists a).
      congruence.
Qed.

Lemma indexOf_occursAt (s pat : string) (i : nat) :
  JS.indexOf s pat = Some i -> occursAt s pat i.
Proof.
  revert i; induction s as [|c r IH]; intros i.
  - cbn [JS.indexOf]. destruct (String.prefix pat "") eqn:E; [|discriminate].
    intros H; injection H as <-. split; [simpl; lia | exact E].
  - cbn [JS.indexOf]. destruct (String.prefix pat (String c r)) eqn:E.
    + intros H; injection H as <-. split; [simpl; lia | exact E].
    + destruct (JS.indexOf r pat) as [j|]; [|discriminate].
      intros H; injection H as <-. destruct (IH j eq_refl) as [Hle Hp].
      split; [simpl; lia | exact Hp].
Qed.

Lemma replace_prefix (s pat rep : string) :
  String.prefix pat s = true ->
  JS.replace s pat rep = rep ++ JS.drop (String.length pat) s.
Proof. intros H. destruct s; cbn [JS.replace]; now rewrite H. Qed.

Lemma replace_at_first (a pat b rep : string) :
  (forall i, i < String.length a -> ~ occursAt (a ++ pat ++ b) pat i) ->
  JS.replace (a ++ pat ++ b) pat rep = a ++ rep ++ b.
Proof.
  induction a as [|c a IH]; intros Hbefore.
  - cbn [String.append].
    rewrite (replace_prefix _ _ _ (prefix_append pat b)).
    now rewrite drop_append.
  - change (JS.replace (String c (a ++ pat ++ b)) pat rep
            = String c (a ++ rep ++ b)).
    cbn [JS.replace].
    destruct (String.prefix pat (String c (a ++ pat ++ b))) eqn:E.
    + exfalso. apply (Hbefore 0); [simpl; lia|].
      split; [simpl; lia | exact E].
    + f_equal. apply IH. intros i Hi [Hle Hp].
      apply (Hbefore (S i)); [simpl; lia|].
      split; [simpl; simpl in Hle; lia | exact Hp].
Qed.

Lemma ReplacedFirst_iff (pat rep s out : string) :
  pat <> "" ->
  (ReplacedFirst pat rep s out <-> out = JS.replace s pat rep).
Proof.
  intros Hpat. split.
  - intros [Hno | a b Hs Hbefore].
    + symmetry. apply replace_absent. unfold JS.includes.
      destruct (JS.indexOf s pat) as [i|] eqn:E; [|reflexivity].
      elim (Hno i). now apply indexOf_occursAt.
    + subst s. symmetry. now apply replace_at_first.
  - intros ->. now apply replace_first.
Qed.

Lemma splitHead_cases (s : string) (sep : ascii) :
  s = JS.splitHead s sep \/ exists rest, s = JS.splitHead s sep ++ String sep rest.
Proof.
  induction s as [|c r IH]; [now left|].
  cbn [JS.splitHead]. destruct (Ascii.eqb c sep) eqn:E.
  - right. exists r. apply Ascii.eqb_eq in E. now subst c.
  - destruct IH as [IH | [rest IH]].
    + left. now rewrite <- IH.
    + right. exists rest. cbn [String.append]. now rewrite <- IH.
Qed.

Lemma CutBefore_iff (sep : ascii) (s out : string) :
  CutBefore sep s out <-> out = JS.splitHead s sep.
Proof.
  split.
  - intros [Hno [-> | [rest ->]]].
    + symmetry. now apply splitHead_absent.
    + symmetry. now apply splitHead_append.
  - intros ->. split; [apply hasChar_splitHead | apply splitHead_cases].
Qed.

Lemma NormalForm_iff (p : URL) (out : string) :
  NormalForm p out <-> out = normalizeParsed p.
Proof.
  unfold NormalForm, normalizeParsed. split.
  - intros (stripped & s80 & s443 & swww & noQuery & H1 & H2 & H3 & H4 & H5 & H6).
    apply SlashStripped_iff in H1.
    apply ReplacedFirst_iff in H2, H3, H4; try discriminate.
    apply CutBefore_iff in H5, H6. now subst.
  - intros ->.
    eexists; eexists; eexists; eexists; eexists.
    split; [apply SlashStripped_iff; reflexivity|].
    split; [apply ReplacedFirst_iff; [discriminate | reflexivity]|].
    split; [apply ReplacedFirst_iff; [discriminate | reflexivity]|].
    split; [apply ReplacedFirst_iff; [discriminate | reflexivity]|].
    split; apply CutBefore_iff; reflexivity.
Qed.

End NormalFormFacts.

(** C8. [normalizeUrl] is total and never throws: the [try] block throws
    exactly when [new URL] rejects the input, and the [catch] then returns
    the input unchanged. On an input that parses, the result is the normal
    form of the parsed URL and nothing else: the lowercased serialisation,
    without its final slash unless the path is the root, with the first
    [:80/], the first [:443/] and the first [://www.] replaced, cut before
    the first [?] and the first [#]; it is lowercase and holds neither [?]
    nor [#]. *)
Theorem normalizeUrl_total {api : URLApi} (u : string) :
  normalizeUrlRun u = Ret (normalizeUrl u)
  /\ (newURL u = None -> normalizeTry u = Throw invalidUrl /\ normalizeUrl u = u)
  /\ (forall p, newURL u = Some p ->
        (exists v, normalizeTry u = Ret v)
        /\ (forall out, NormalForm p out <-> out = normalizeUrl u)
        /\ isLower (normalizeUrl u)
        /\ JS.hasChar "?" (normalizeUrl u) = false
        /\ JS.hasChar "#" (normalizeUrl u) = false).
Proof.
  split; [|split].
  - unfold normalizeUrlRun, normalizeUrl, catchExc.
    now destruct (normalizeTry u).
  - intros H; split; [|now apply normalizeUrl_unparsed].
    unfold normalizeTry; now rewrite H.
  - intros p H. rewrite (normalizeUrl_parsed _ _ H).
    split; [|split; [|split; [|split]]].
    + unfold normalizeTry; rewrite H. now eexists.
    + intros out. apply NormalForm_iff.
    + apply normalizeParsed_isLower.
    + apply normalizeParsed_no_query.
    + apply normalizeParsed_no_hash.
Qed.
